(** * Dynamic form renderer: validation ruleset, default values, visibility
      and submission

    A shallow embedding of [src/fragments/formRenderer.tsx]:

    - [createValidationSchema]   (lines 24-74), the Schema Builder;
    - [defaultValues]            (lines 108-116), the Default Value Deriver;
    - [showPhoneEmail], [render] (lines 150-151, 186-187, 264), visibility;
    - [onSubmit], [handleSubmit] (lines 153-160, 182), submission.

    The component is written against three libraries whose code is not part
    of the repository: zod (the rules), react-hook-form with its zod
    resolver (the live values and [handleSubmit]) and the ECMAScript
    built-ins ([Number], [!!], [||], [String.prototype.trim],
    [RegExp.prototype.test]).  The fragment of each that the component
    calls is modelled below, each in a module named after it, so that the
    component's own definitions can be read against the source line by
    line.

    Conventions.  A JavaScript string is a [string] whose characters are
    code units below 256.  A JavaScript number is a binary64 value of
    [SpecFloat].  An object used as a dictionary is a [gmap string _]; a
    property that is missing reads as [undefined].  Property names are
    taken not to collide with the members of [Object.prototype]. *)

From Stdlib Require Import ZArith Ascii String List.
From Stdlib Require Import Floats.SpecFloat.
From stdpp Require Import gmap strings list fin_maps pretty.

Local Open Scope Z_scope.
Set Warnings "-clear-no-such-hyp".

(* ===================================================================== *)
(** * ECMAScript values and coercions *)
(* ===================================================================== *)

Module JS.

(** ** Numbers: IEEE 754 binary64 *)

Abbreviation number := spec_float.

Definition prec : Z := 53.
Definition emax : Z := 1024.

(** The number denoted by an integer literal or an integer mathematical
    value, rounded to nearest, ties to even. *)
Definition of_Z (z : Z) : number := binary_normalize prec emax z 0 false.

(** The number nearest to [m / d], for the mathematical value of a
    decimal literal with a negative power of ten. *)
Definition of_ratio (s : bool) (m d : positive) : number :=
  SFdiv prec emax (S754_finite s m 0) (S754_finite false d 0).

Definition NaN : number := S754_nan.

(** [x < y], [x > y], [x <= y], [x >= y] on numbers: all false when
    either side is NaN. *)
Definition lt (x y : number) : bool := SFltb x y.
Definition gt (x y : number) : bool := SFltb y x.
Definition le (x y : number) : bool := SFleb x y.
Definition ge (x y : number) : bool := SFleb y x.

Definition isNaN (x : number) : bool :=
  match x with S754_nan => true | _ => false end.

(** ** Values: [string | number | boolean | undefined] *)

Inductive value : Type :=
| undefined
| boolean (b : bool)
| num (n : number)
| str (s : string).

(** [ToBoolean]: the falsy values are [undefined], [false], [+0], [-0],
    [NaN] and the empty string. *)
Definition ToBoolean (v : value) : bool :=
  match v with
  | undefined => false
  | boolean b => b
  | num (S754_zero _) => false
  | num S754_nan => false
  | num _ => true
  | str EmptyString => false
  | str _ => true
  end.

(** [a || b] and [a && b] return one of their operands. *)
Definition or (a b : value) : value := if ToBoolean a then a else b.
Definition and (a b : value) : value := if ToBoolean a then b else a.

(** ** Strings *)

(** White space and line terminators among the code units below 256:
    TAB, LF, VT, FF, CR, SP and NBSP. *)
Definition isWhiteSpace (c : ascii) : bool :=
  let n := Z.of_nat (nat_of_ascii c) in
  ((9 <=? n) && (n <=? 13)) || (n =? 32) || (n =? 160).

Fixpoint trimStart (s : string) : string :=
  match s with
  | String c s' => if isWhiteSpace c then trimStart s' else s
  | EmptyString => EmptyString
  end.

(** Drops trailing white space: a white-space character is kept only when
    something that is kept follows it. *)
Fixpoint trimEnd (s : string) : string :=
  match s with
  | EmptyString => EmptyString
  | String c s' =>
      match trimEnd s' with
      | EmptyString => if isWhiteSpace c then EmptyString else String c EmptyString
      | t => String c t
      end
  end.

(** [String.prototype.trim]. *)
Definition trim (s : string) : string := trimEnd (trimStart s).

(** ** [Number(v)]: ToNumber *)

Definition digit_of (base : Z) (c : ascii) : option Z :=
  let n := Z.of_nat (nat_of_ascii c) in
  let d :=
    if (48 <=? n) && (n <=? 57) then Some (n - 48)
    else if (97 <=? n) && (n <=? 102) then Some (n - 87)
    else if (65 <=? n) && (n <=? 70) then Some (n - 55)
    else None in
  match d with
  | Some k => if k <? base then Some k else None
  | None => None
  end.

(** The longest prefix of digits of [s] in [base]: the digits read so
    far as an integer, how many there were, and what follows. *)
Fixpoint digits (base : Z) (acc : Z) (count : Z) (s : string) : Z * Z * string :=
  match s with
  | String c s' =>
      match digit_of base c with
      | Some d => digits base (base * acc + d) (count + 1) s'
      | None => (acc, count, s)
      end
  | EmptyString => (acc, count, s)
  end.

(** NonDecimalIntegerLiteral after its [0x], [0o] or [0b] prefix: one or
    more digits and nothing else. *)
Definition nonDecimal (base : Z) (s : string) : number :=
  match digits base 0 0 s with
  | (m, count, EmptyString) => if 0 <? count then of_Z m else NaN
  | _ => NaN
  end.

(** The number for [m * 10 ^ e] with sign [s]. *)
Definition decimalValue (s : bool) (m e : Z) : number :=
  match m with
  | Zpos p =>
      if 0 <=? e then binary_normalize prec emax (if s then - (m * 10 ^ e) else m * 10 ^ e) 0 false
      else of_ratio s p (Z.to_pos (10 ^ (- e)))
  | _ => S754_zero s
  end.

(** ExponentPart, optional: [e] or [E], an optional sign, one or more
    digits.  [None] when an exponent marker is not followed by digits. *)
Definition exponentPart (s : string) : option (Z * string) :=
  match s with
  | String c s' =>
      if (c =? "e")%char || (c =? "E")%char then
        let '(neg, s'') :=
          match s' with
          | String "+"%char r => (false, r)
          | String "-"%char r => (true, r)
          | _ => (false, s')
          end in
        match digits 10 0 0 s'' with
        | (x, count, r) =>
            if 0 <? count then Some (if neg then - x else x, r) else None
        end
      else Some (0, s)
  | EmptyString => Some (0, s)
  end.

(** StrUnsignedDecimalLiteral: [Infinity], or digits with an optional
    fraction and exponent, with a digit on at least one side of the
    point. *)
Definition unsignedDecimal (sign : bool) (s : string) : number :=
  if String.eqb s "Infinity" then S754_infinity sign
  else
    let '(ip, ni, r1) := digits 10 0 0 s in
    let '(m, nf, r2) :=
      match r1 with
      | String "."%char r => let '(m, nf, r2) := digits 10 ip 0 r in (m, nf, r2)
      | _ => (ip, 0, r1)
      end in
    if 0 <? ni + nf then
      match exponentPart r2 with
      | Some (x, EmptyString) => decimalValue sign m (x - nf)
      | _ => NaN
      end
    else NaN.

(** StringToNumber: white space is trimmed, the empty string is [+0],
    anything that is not a numeric literal is [NaN]. *)
Definition StringToNumber (s : string) : number :=
  match trim s with
  | EmptyString => S754_zero false
  | String "0"%char (String "x"%char r) | String "0"%char (String "X"%char r) => nonDecimal 16 r
  | String "0"%char (String "o"%char r) | String "0"%char (String "O"%char r) => nonDecimal 8 r
  | String "0"%char (String "b"%char r) | String "0"%char (String "B"%char r) => nonDecimal 2 r
  | String "+"%char r => unsignedDecimal false r
  | String "-"%char r => unsignedDecimal true r
  | t => unsignedDecimal false t
  end.

Definition Number (v : value) : number :=
  match v with
  | undefined => NaN
  | boolean true => of_Z 1
  | boolean false => S754_zero false
  | num n => n
  | str s => StringToNumber s
  end.

(** ** Dictionaries *)

(** [o[k]]: a missing property reads as [undefined]. *)
Definition get (o : gmap string value) (k : string) : value :=
  default undefined (o !! k).

End JS.

(* ===================================================================== *)
(** * Regular expressions *)
(* ===================================================================== *)

(** The patterns of the component are all of the form [/^...$/] without
    the [m] flag, so [test] is a match of the whole string.  The matcher
    works by derivatives. *)

Module RegExp.

(** What may stand between [[] and []]: a character, a range [a-b], or
    the escape [\s]. *)
Inductive ClassItem : Type :=
| Ch (c : ascii)
| Range (lo hi : ascii)
| Space.

Inductive t : Type :=
| Fail                                         (* matches nothing *)
| Empty                                        (* matches the empty string *)
| Class (negated : bool) (items : list ClassItem)   (* [...] and [^...] *)
| Cat (r1 r2 : t)
| Alt (r1 r2 : t)
| Star (r : t)
| Both (r1 r2 : t)                             (* r1 and r2 both match *)
| Not (r : t).                                 (* r does not match *)

Definition item_matches (c : ascii) (i : ClassItem) : bool :=
  match i with
  | Ch c' => (c =? c')%char
  | Range lo hi => (nat_of_ascii lo <=? nat_of_ascii c)%nat && (nat_of_ascii c <=? nat_of_ascii hi)%nat
  | Space => JS.isWhiteSpace c
  end.

Definition class_matches (negated : bool) (items : list ClassItem) (c : ascii) : bool :=
  xorb negated (existsb (item_matches c) items).

Fixpoint nullable (r : t) : bool :=
  match r with
  | Fail => false
  | Empty => true
  | Class _ _ => false
  | Cat r1 r2 => nullable r1 && nullable r2
  | Alt r1 r2 => nullable r1 || nullable r2
  | Star _ => true
  | Both r1 r2 => nullable r1 && nullable r2
  | Not r' => negb (nullable r')
  end.

Fixpoint deriv (c : ascii) (r : t) : t :=
  match r with
  | Fail => Fail
  | Empty => Fail
  | Class negated items => if class_matches negated items c then Empty else Fail
  | Cat r1 r2 =>
      if nullable r1 then Alt (Cat (deriv c r1) r2) (deriv c r2)
      else Cat (deriv c r1) r2
  | Alt r1 r2 => Alt (deriv c r1) (deriv c r2)
  | Star r' => Cat (deriv c r') (Star r')
  | Both r1 r2 => Both (deriv c r1) (deriv c r2)
  | Not r' => Not (deriv c r')
  end.

(** [/^r$/.test(s)] *)
Fixpoint test (r : t) (s : string) : bool :=
  match s with
  | EmptyString => nullable r
  | String c s' => test (deriv c r) s'
  end.

(** Derived forms: [r?], [r+], [r{n}], [r{n,m}] (as [r{n}] followed by
    [k = m - n] optional copies), [r{n,}], a literal character, the
    concatenation of a list, and a negative lookahead [(?!r)] that
    stands at the start of the pattern. *)
Definition Opt (r : t) : t := Alt r Empty.
Definition Plus (r : t) : t := Cat r (Star r).
Fixpoint Times (n : nat) (r : t) : t :=
  match n with O => Empty | S n' => Cat r (Times n' r) end.
Fixpoint UpTo (k : nat) (r : t) : t :=
  match k with O => Empty | S k' => Opt (Cat r (UpTo k' r)) end.
Definition Between (n k : nat) (r : t) : t := Cat (Times n r) (UpTo k r).
Definition AtLeast (n : nat) (r : t) : t := Cat (Times n r) (Star r).
Definition Lit (c : ascii) : t := Class false [Ch c].
Definition Seq (rs : list t) : t := foldr Cat Empty rs.
Definition Anything : t := Star (Class true []).
Definition NotAhead (r rest : t) : t := Both (Not (Cat r Anything)) rest.
(** [.]: any character but a line terminator. *)
Definition Dot : t := Class true [Ch "010"; Ch "013"].

End RegExp.

(* ===================================================================== *)
(** * zod: schemas and their parsing *)
(* ===================================================================== *)

Module Zod.

(** ** Issues and the default error map *)

Inductive ZodParsedType : Type :=
| t_undefined | t_string | t_nan | t_number | t_boolean.

Definition getParsedType (data : JS.value) : ZodParsedType :=
  match data with
  | JS.undefined => t_undefined
  | JS.str _ => t_string
  | JS.num n => if JS.isNaN n then t_nan else t_number
  | JS.boolean _ => t_boolean
  end.

Definition type_name (t : ZodParsedType) : string :=
  match t with
  | t_undefined => "undefined"
  | t_string => "string"
  | t_nan => "nan"
  | t_number => "number"
  | t_boolean => "boolean"
  end.

Inductive ZodIssueCode : Type :=
| invalid_type | invalid_string | too_small | too_big | custom.

Record ZodIssue : Type := { code : ZodIssueCode; message : string }.

(** The message of an issue: the one given with the check, else the one
    of the schema's own [errorMap], else the default error map's. *)
Definition makeIssue (c : ZodIssueCode) (own schemaErrorMap : option string)
    (defaultError : string) : ZodIssue :=
  {| code := c;
     message := match own, schemaErrorMap with
                | Some m, _ => m
                | None, Some m => m
                | None, None => defaultError
                end |}.

Definition invalid_type_issue (expected : ZodParsedType) (data : JS.value)
    (schemaErrorMap : option string) : ZodIssue :=
  makeIssue invalid_type None schemaErrorMap
    (match getParsedType data with
     | t_undefined => "Required"
     | received => "Expected " +:+ type_name expected +:+ ", received " +:+ type_name received
     end).

(** ** Schemas *)

Inductive ZodStringCheck : Type :=
| check_email (msg : option string)
| check_regex (regex : RegExp.t) (msg : option string)
| check_trim
| check_length_min (value : nat) (msg : option string).

(** The bounds of the component are integer literals. *)
Inductive ZodNumberCheck : Type :=
| check_min (value : Z) (msg : option string)
| check_max (value : Z) (msg : option string).

Inductive ZodType : Type :=
| ZodString (checks : list ZodStringCheck)
| ZodNumber (coerce : bool) (errorMap : option string) (checks : list ZodNumberCheck)
| ZodBoolean
| ZodOptional (innerType : ZodType)
| ZodEffects (schema : ZodType) (refinement : JS.value → bool) (msg : string).

(** Modelled from the spec: the "standard email-address pattern" that
    [z.string().email()] tests, which belongs to the rule library and is
    not under src/.  The pattern written out is the one zod 3.23 ships,
    matched without regard to case: the string does not start with a dot
    and has no two dots in a row; a local part of letters, digits and
    [_ ' + - .] whose last character is a letter, a digit or one of
    [_ + -]; an [@]; one or more labels, each a letter or digit followed
    by letters, digits or [-] and closed by a dot; two or more letters. *)
Definition emailRegex : RegExp.t :=
  let alnum := [RegExp.Range "A" "Z"; RegExp.Range "a" "z"; RegExp.Range "0" "9"] in
  let alpha := [RegExp.Range "A" "Z"; RegExp.Range "a" "z"] in
  RegExp.NotAhead (RegExp.Lit ".")
    (RegExp.NotAhead (RegExp.Seq [RegExp.Star RegExp.Dot; RegExp.Lit "."; RegExp.Lit "."])
      (RegExp.Seq
         [ RegExp.Star (RegExp.Class false
             (alnum ++ [RegExp.Ch "_"; RegExp.Ch "'"; RegExp.Ch "+"; RegExp.Ch "-"; RegExp.Ch "."]));
           RegExp.Class false (alnum ++ [RegExp.Ch "_"; RegExp.Ch "+"; RegExp.Ch "-"]);
           RegExp.Lit "@";
           RegExp.Plus (RegExp.Seq
             [ RegExp.Class false alnum;
               RegExp.Star (RegExp.Class false (alnum ++ [RegExp.Ch "-"]));
               RegExp.Lit "." ]);
           RegExp.AtLeast 2 (RegExp.Class false alpha) ])).

(** ** Parsing *)

(** What [_parse] returns: [output] is absent when parsing was aborted;
    a parse succeeded when it raised no issue. *)
Record ParseReturn : Type := { output : option JS.value; issues : list ZodIssue }.

Definition OK (v : JS.value) : ParseReturn := {| output := Some v; issues := [] |}.
Definition INVALID (i : ZodIssue) : ParseReturn := {| output := None; issues := [i] |}.

Definition isValid (r : ParseReturn) : bool :=
  match issues r with [] => true | _ => false end.

(** [ZodString._parse] after the type test: the checks run in the order
    they were added, each on the data the previous ones left; a failed
    check raises an issue and the rest still run. *)
Fixpoint stringChecks (checks : list ZodStringCheck) (data : string)
    : string * list ZodIssue :=
  match checks with
  | [] => (data, [])
  | c :: cs =>
      let '(data', raised) :=
        match c with
        | check_length_min value msg =>
            (data, if (String.length data <? value)%nat
                   then [makeIssue too_small msg None
                           ("String must contain at least " +:+ pretty value +:+ " character(s)")]
                   else [])
        | check_email msg =>
            (data, if negb (RegExp.test emailRegex data)
                   then [makeIssue invalid_string msg None "Invalid email"] else [])
        | check_regex regex msg =>
            (data, if negb (RegExp.test regex data)
                   then [makeIssue invalid_string msg None "Invalid"] else [])
        | check_trim => (JS.trim data, [])
        end in
      let '(final, later) := stringChecks cs data' in
      (final, raised ++ later)
  end.

(** [ZodNumber._parse] after the type test: [min] raises [too_small]
    when [data < value], [max] raises [too_big] when [data > value]. *)
Definition numberCheck (schemaErrorMap : option string) (data : JS.number)
    (c : ZodNumberCheck) : list ZodIssue :=
  match c with
  | check_min value msg =>
      if JS.lt data (JS.of_Z value)
      then [makeIssue too_small msg schemaErrorMap
              ("Number must be greater than or equal to " +:+ pretty value)]
      else []
  | check_max value msg =>
      if JS.gt data (JS.of_Z value)
      then [makeIssue too_big msg schemaErrorMap
              ("Number must be less than or equal to " +:+ pretty value)]
      else []
  end.

Fixpoint _parse (t : ZodType) (input : JS.value) : ParseReturn :=
  match t with
  | ZodString checks =>
      match input with
      | JS.str s =>
          let '(data, raised) := stringChecks checks s in
          {| output := Some (JS.str data); issues := raised |}
      | _ => INVALID (invalid_type_issue t_string input None)
      end
  | ZodNumber coerce errorMap checks =>
      let data := if coerce then JS.num (JS.Number input) else input in
      match data with
      | JS.num n =>
          if JS.isNaN n then INVALID (invalid_type_issue t_number data errorMap)
          else {| output := Some data; issues := concat (map (numberCheck errorMap n) checks) |}
      | _ => INVALID (invalid_type_issue t_number data errorMap)
      end
  | ZodBoolean =>
      match input with
      | JS.boolean _ => OK input
      | _ => INVALID (invalid_type_issue t_boolean input None)
      end
  | ZodOptional innerType =>
      match input with
      | JS.undefined => OK JS.undefined
      | _ => _parse innerType input
      end
  | ZodEffects schema refinement msg =>
      let inner := _parse schema input in
      match output inner with
      | None => inner
      | Some v =>
          {| output := Some v;
             issues := issues inner ++
                       (if refinement v then []
                        else [{| code := custom; message := msg |}]) |}
      end
  end.

(** ** Objects *)

(** [ZodObject._parse] on a dictionary, with the default policy of
    stripping unknown keys: every key of the shape is parsed against the
    property of that name; the issues are kept by path; on success the
    output has the parsed value of every key, except that an [undefined]
    result is only set for a key the input had. *)
Definition parseShape (shape : gmap string ZodType) (data : gmap string JS.value)
    : gmap string ParseReturn :=
  map_imap (λ key t, Some (_parse t (JS.get data key))) shape.

Definition issuesByPath (results : gmap string ParseReturn) : gmap string (list ZodIssue) :=
  omap (λ r, match issues r with [] => None | l => Some l end) results.

Definition finalObject (data : gmap string JS.value) (results : gmap string ParseReturn)
    : gmap string JS.value :=
  map_imap (λ key r,
    match output r with
    | Some JS.undefined => if data !! key is Some _ then Some JS.undefined else None
    | o => o
    end) results.

Inductive SafeParseReturn : Type :=
| success (data : gmap string JS.value)
| failure (error : gmap string (list ZodIssue)).

Definition safeParse (shape : gmap string ZodType) (data : gmap string JS.value)
    : SafeParseReturn :=
  let results := parseShape shape data in
  let error := issuesByPath results in
  if decide (error = ∅) then success (finalObject data results) else failure error.

End Zod.

(* ===================================================================== *)
(** * react-hook-form with the zod resolver *)
(* ===================================================================== *)

Module ReactHookForm.

(** [zodResolver(schema)]: the whole of the form's values is parsed
    against the schema.  On success the resolver hands back the parsed
    (coerced) values and no error; on failure no values and, for each
    path, the message of the first issue raised there. *)
Definition zodResolver (schema : gmap string Zod.ZodType) (values : gmap string JS.value)
    : gmap string JS.value * gmap string string :=
  match Zod.safeParse schema values with
  | Zod.success data => (data, ∅)
  | Zod.failure error => (∅, omap (λ l, Zod.message <$> head l) error)
  end.

(** [handleSubmit(onValid)] on a submit event: the resolver runs on the
    current values; [onValid] is called with the resolver's values when
    it reports no error and is not called otherwise.  The result is the
    errors to show and what [onValid] returned, if it ran. *)
Definition handleSubmit {A : Type} (schema : gmap string Zod.ZodType)
    (onValid : gmap string JS.value → A) (values : gmap string JS.value)
    : gmap string string * option A :=
  let '(data, errors) := zodResolver schema values in
  if decide (errors = ∅) then (errors, Some (onValid data)) else (errors, None).

End ReactHookForm.

(* ===================================================================== *)
(** * The component: src/fragments/formRenderer.tsx *)
(* ===================================================================== *)

(** [type FormField] (lines 13-22).  An optional property that is absent is
    [None]; an absent [value] is [JS.undefined].  [extra] are the
    properties the wire objects carry beyond the declared ones ([rowIndex],
    [variant], [checked]), which an object spread copies along. *)
Record FormField : Type := {
  name : string;
  type : string;
  label : option string;
  value : JS.value;
  placeholder : option string;
  required : option bool;
  disabled : option bool;
  description : option string;
  extra : list (string * JS.value)
}.

(** [{ ...field, value: v }] *)
Definition with_value (field : FormField) (v : JS.value) : FormField :=
  {| name := name field; type := type field; label := label field; value := v;
     placeholder := placeholder field; required := required field;
     disabled := disabled field; description := description field;
     extra := extra field |}.

(** [field.required] as a condition. *)
Definition is_required (field : FormField) : bool := default false (required field).

(** [field.label || field.name] *)
Definition label_or_name (field : FormField) : string :=
  match label field with
  | Some (String c l) => String c l
  | _ => name field
  end.

(** [/^[\+]?[(]?[0-9]{3}[)]?[-\s\.]?[0-9]{3}[-\s\.]?[0-9]{4,6}$/]
    (lines 49, 51 and 69). *)
Definition phoneRegex : RegExp.t :=
  let digit := RegExp.Class false [RegExp.Range "0" "9"] in
  let sep := RegExp.Class false [RegExp.Ch "-"; RegExp.Space; RegExp.Ch "."] in
  RegExp.Seq
    [ RegExp.Opt (RegExp.Class false [RegExp.Ch "+"]);
      RegExp.Opt (RegExp.Class false [RegExp.Ch "("]);
      RegExp.Times 3 digit;
      RegExp.Opt (RegExp.Class false [RegExp.Ch ")"]);
      RegExp.Opt sep;
      RegExp.Times 3 digit;
      RegExp.Opt sep;
      RegExp.Between 4 2 digit ].

(** [/^[^\s@]+@[^\s@]+\.[^\s@]+$/] (line 68). *)
Definition emailRegex : RegExp.t :=
  let plain := RegExp.Class true [RegExp.Space; RegExp.Ch "@"] in
  RegExp.Seq
    [ RegExp.Plus plain; RegExp.Lit "@"; RegExp.Plus plain; RegExp.Lit "."; RegExp.Plus plain ].

(** The body of the [switch] (lines 30-61): the rule of one descriptor. *)
Definition validator (field : FormField) : Zod.ZodType :=
  if String.eqb (type field) "email" then
    if is_required field
    then Zod.ZodString [Zod.check_email (Some "Invalid email format")]
    else Zod.ZodOptional (Zod.ZodString [Zod.check_email (Some "Invalid email format")])
  else if String.eqb (type field) "number" then
    if String.eqb (name field) "age" then
      if is_required field
      then Zod.ZodNumber true (Some "Age must be a number")
             [ Zod.check_min 1 (Some "Age must be at least 1");
               Zod.check_max 120 (Some "Age must be less than 120") ]
      else Zod.ZodOptional
             (Zod.ZodNumber true None [Zod.check_min 1 None; Zod.check_max 120 None])
    else
      if is_required field
      then Zod.ZodNumber true None [Zod.check_min 1 None; Zod.check_max 100 None]
      else Zod.ZodOptional
             (Zod.ZodNumber true None [Zod.check_min 1 None; Zod.check_max 100 None])
  else if String.eqb (type field) "tel" then
    if is_required field
    then Zod.ZodString [Zod.check_regex phoneRegex (Some "Invalid phone number format")]
    else Zod.ZodOptional
           (Zod.ZodString [Zod.check_regex phoneRegex (Some "Invalid phone number format")])
  else if String.eqb (type field) "checkbox" then
    Zod.ZodOptional Zod.ZodBoolean
  else
    if is_required field
    then Zod.ZodString
           [ Zod.check_trim;
             Zod.check_length_min 1 (Some (label_or_name field +:+ " is required")) ]
    else Zod.ZodOptional (Zod.ZodString []).

(** The refinement of the [contact] rule (lines 67-71).  It only ever
    receives what [z.string()] let through. *)
Definition contactRefinement (v : JS.value) : bool :=
  match v with
  | JS.str s => RegExp.test emailRegex s || RegExp.test phoneRegex s
  | _ => false
  end.

Definition contactValidator : Zod.ZodType :=
  Zod.ZodEffects (Zod.ZodString []) contactRefinement
    "Please enter a valid email or phone number".

(** [createValidationSchema] (lines 24-74): one assignment
    [schemaFields[field.name] = validator] per descriptor, in order, then
    [schemaFields['contact']]. *)
Definition createValidationSchema (fields : list FormField) : gmap string Zod.ZodType :=
  let schemaFields :=
    foldl (λ schemaFields field, <[name field := validator field]> schemaFields) ∅ fields in
  <["contact" := contactValidator]> schemaFields.

(** The initial value of one descriptor (lines 111-113). *)
Definition defaultValue (field : FormField) : JS.value :=
  if String.eqb (type field) "checkbox"
  then JS.boolean (JS.ToBoolean (value field))
  else JS.or (value field) (JS.str "").

(** [defaultValues] (lines 108-116), once the descriptors are there. *)
Definition defaultValues (formFields : list FormField) : gmap string JS.value :=
  foldl (λ acc field, <[name field := defaultValue field]> acc) ∅ formFields.

(** [age && Number(age) > 18] (lines 150-151), [age] being the live value
    of that name. *)
Definition showPhoneEmail (values : gmap string JS.value) : JS.value :=
  let age := JS.get values "age" in
  JS.and age (JS.boolean (JS.gt (JS.Number age) (JS.of_Z 18))).

(** Which controls the form renders (lines 185-306), not what each one
    draws (its value, error message and interaction counter are left out):
    a control for each descriptor whose name is not [contact], in order,
    then what [{showPhoneEmail && ...}] yields: the contact control when
    the condition is truthy, the condition itself as text when it is a
    falsy number, nothing otherwise. *)
Inductive Rendered : Type :=
| Control (field : FormField)
| ContactControl
| Text (v : JS.value).

Definition render (formFields : list FormField) (values : gmap string JS.value)
    : list Rendered :=
  flat_map (λ field, if negb (String.eqb (name field) "contact") then [Control field] else [])
    formFields
  ++ (let shown := showPhoneEmail values in
      if JS.ToBoolean shown then [ContactControl]
      else match shown with JS.num _ => [Text shown] | _ => [] end).

(** [onSubmit] (lines 153-160): the list handed to [mutation.mutate], that
    is, the body of the POST that replaces the stored descriptors. *)
Definition onSubmit (formFields : list FormField) (data : gmap string JS.value)
    : list FormField :=
  map (λ field, with_value field (JS.get data (name field))) formFields.

(** ** The session once the descriptors are loaded *)

Record Form : Type := {
  formFields : list FormField;              (* the fetched descriptors *)
  values : gmap string JS.value;            (* the live values *)
  errors : gmap string string;              (* the messages shown *)
  interactionCount : gmap string nat;
  posted : list (list FormField)            (* the bodies sent so far *)
}.

Definition mount (fields : list FormField) : Form :=
  {| formFields := fields; values := defaultValues fields; errors := ∅;
     interactionCount := ∅; posted := [] |}.

(** [onSubmit={handleSubmit(onSubmit)}] (line 182): one click on the
    submit button, up to the call of [mutation.mutate].  What the mutation
    brings about later when the POST succeeds (lines 122-129: the query is
    invalidated, the list fetched again, the defaults derived anew and
    given to the form) is not part of this step. *)
Definition submit (s : Form) : Form :=
  let '(errs, sent) :=
    ReactHookForm.handleSubmit (createValidationSchema (formFields s))
      (onSubmit (formFields s)) (values s) in
  {| formFields := formFields s; values := values s; errors := errs;
     interactionCount := interactionCount s;
     posted := match sent with
               | Some body => posted s ++ [body]
               | None => posted s
               end |}.

(** An edit of a control (lines 208-211, 236-239, 285-288): the new value
    is stored, the rule of that field is run again ([mode: 'onChange']) and
    the interaction is counted ([trackInteraction], lines 167-172).  The
    value is stored under the control's name as a key, which is what the
    form library does for a name made of word characters ([plainName]
    below); it reads other names as paths into nested objects, which this
    step does not model.  Nor does it model that a control that appears
    registers its name, so that a key holding [undefined] shows up: the
    statements below read values with [JS.get], for which a missing key
    and one holding [undefined] are the same. *)
Definition change (fieldName : string) (v : JS.value) (s : Form) : Form :=
  let values' := <[fieldName := v]> (values s) in
  let found :=
    (ReactHookForm.zodResolver (createValidationSchema (formFields s)) values').2 in
  {| formFields := formFields s; values := values';
     errors := match found !! fieldName with
               | Some m => <[fieldName := m]> (errors s)
               | None => delete fieldName (errors s)
               end;
     interactionCount :=
       <[fieldName := (default 0%nat (interactionCount s !! fieldName) + 1)%nat]>
         (interactionCount s);
     posted := posted s |}.

(** [handleReset] (lines 162-165). *)
Definition handleReset (s : Form) : Form :=
  {| formFields := formFields s; values := defaultValues (formFields s); errors := ∅;
     interactionCount := ∅; posted := posted s |}.

(** ** The descriptors the API route starts with *)

Definition Username : FormField :=
  {| name := "Username"; type := "text"; label := None; value := JS.str "";
     placeholder := Some "shadcn"; required := Some true; disabled := Some false;
     description := Some "This is your public display name";
     extra := [("checked", JS.boolean true); ("rowIndex", JS.num (JS.of_Z 0));
               ("variant", JS.str "Input")] |}.

Definition age : FormField :=
  {| name := "age"; type := "number"; label := Some "Age"; value := JS.num (JS.of_Z 18);
     placeholder := Some "Enter your age"; required := Some true; disabled := None;
     description := None;
     extra := [("rowIndex", JS.num (JS.of_Z 1)); ("variant", JS.str "Input")] |}.

Definition terms_001 : FormField :=
  {| name := "terms_001"; type := "checkbox"; label := Some "Agree to terms";
     value := JS.undefined; placeholder := None; required := Some true; disabled := None;
     description := None;
     extra := [("checked", JS.boolean false); ("rowIndex", JS.num (JS.of_Z 2));
               ("variant", JS.str "Checkbox")] |}.

Definition initialFields : list FormField := [Username; age; terms_001].

(** ** Notions the statements use, and sample descriptors and sessions *)

(** The default strategy: a required field must be non-empty once trimmed,
    an optional one is any string or absent. *)
Definition genericStringRule (field : FormField) : Zod.ZodType :=
  if is_required field
  then Zod.ZodString
         [ Zod.check_trim;
           Zod.check_length_min 1 (Some (label_or_name field +:+ " is required")) ]
  else Zod.ZodOptional (Zod.ZodString []).

(** The initial value as the specification words it: a checkbox takes its
    [value] coerced to boolean; any other descriptor keeps its [value]
    whenever one is present and takes the empty string otherwise. *)
Definition spec_defaultValue (field : FormField) : JS.value :=
  if String.eqb (type field) "checkbox"
  then JS.boolean (JS.ToBoolean (value field))
  else match value field with
       | JS.undefined => JS.str ""
       | present => present
       end.

(** A number descriptor whose stored value is 0. *)
Definition quantity : FormField :=
  {| name := "quantity"; type := "number"; label := None; value := JS.num (JS.of_Z 0);
     placeholder := None; required := None; disabled := None; description := None;
     extra := [] |}.

(** [lo <= n <= hi]; false when [n] is NaN. *)
Definition inRange (lo hi : Z) (n : JS.number) : bool :=
  JS.ge n (JS.of_Z lo) && JS.le n (JS.of_Z hi).

(** [z.coerce.number(...).min(lo, ...).max(hi, ...)] *)
Definition boundedNumber (errorMap m1 m2 : option string) (lo hi : Z) : Zod.ZodType :=
  Zod.ZodNumber true errorMap [Zod.check_min lo m1; Zod.check_max hi m2].

(** The upper bound of a number descriptor. *)
Definition upperBound (field : FormField) : Z :=
  if String.eqb (name field) "age" then 120 else 100.

(** An optional [number] descriptor named [age]. *)
Definition optionalAge : FormField :=
  {| name := "age"; type := "number"; label := Some "Age"; value := JS.undefined;
     placeholder := None; required := Some false; disabled := None; description := None;
     extra := [] |}.

(** A session in which the user has typed a name and a contact. *)
Definition filledIn : Form :=
  change "contact" (JS.str "user@example.com")
    (change "Username" (JS.str " shadcn ") (mount initialFields)).

(** A session in which the age was edited to 121 while the name and the
    contact are fine. *)
Definition tooOld : Form := change "age" (JS.str "121") filledIn.

(** An optional e-mail field with nothing stored. *)
Definition newsletter : FormField :=
  {| name := "newsletter"; type := "email"; label := Some "Newsletter"; value := JS.undefined;
     placeholder := None; required := Some false; disabled := None; description := None;
     extra := [] |}.

(* ===================================================================== *)
(** * The API route that stores the descriptors *)
(* ===================================================================== *)

(** The handler that serves [/api/form] (second part of src/app/page.tsx,
    lines 21-66): a module-level variable holds the descriptor list; GET
    answers with it, POST replaces it by the request body and anything
    else is refused with 405.  The body is the list the component posts. *)
Module Api.

Inductive Json : Type :=
| descriptors (list_ : list FormField)
| message (text : string).

Record Request : Type := { method : string; body : list FormField }.

Record Response : Type := { status : nat; json : Json }.

(** [handler(req, res)] with the current content of the variable: the new
    content and the response. *)
Definition handler (formFields : list FormField) (req : Request)
    : list FormField * Response :=
  if String.eqb (method req) "GET" then
    (formFields, {| status := 200; json := descriptors formFields |})
  else if String.eqb (method req) "POST" then
    (body req, {| status := 200; json := message "Form updated successfully!" |})
  else
    (formFields, {| status := 405; json := message "Method not allowed" |}).

(** The requests of a list served one after the other: the final content
    and the responses in order. *)
Definition serve (formFields : list FormField) (reqs : list Request)
    : list FormField * list Response :=
  foldl (λ '(store, answers) req,
           let '(store', answer) := handler store req in (store', answers ++ [answer]))
        (formFields, []) reqs.

(** The body of the last POST of a list of requests, if there is one. *)
Definition lastPosted (reqs : list Request) : option (list FormField) :=
  body <$> last (filter (λ req, method req = "POST") reqs).

End Api.

(* ===================================================================== *)
(** * What a pattern matches *)
(* ===================================================================== *)

(** The strings a pattern denotes, independently of the matcher. *)
Module Language.

Inductive star (P : string → Prop) : string → Prop :=
| star_nil : star P ""
| star_app (s1 s2 : string) : P s1 → star P s2 → star P (s1 +:+ s2).

Fixpoint matches (r : RegExp.t) (s : string) : Prop :=
  match r with
  | RegExp.Fail => False
  | RegExp.Empty => s = ""
  | RegExp.Class negated items =>
      ∃ c, s = String c "" ∧ RegExp.class_matches negated items c = true
  | RegExp.Cat r1 r2 => ∃ s1 s2, s = s1 +:+ s2 ∧ matches r1 s1 ∧ matches r2 s2
  | RegExp.Alt r1 r2 => matches r1 s ∨ matches r2 s
  | RegExp.Star r' => star (matches r') s
  | RegExp.Both r1 r2 => matches r1 s ∧ matches r2 s
  | RegExp.Not r' => ¬ matches r' s
  end.

(** A lower bound on the length of what a pattern matches. *)
Fixpoint minLength (r : RegExp.t) : nat :=
  match r with
  | RegExp.Fail | RegExp.Empty | RegExp.Star _ | RegExp.Not _ => 0%nat
  | RegExp.Class _ _ => 1%nat
  | RegExp.Cat r1 r2 => (minLength r1 + minLength r2)%nat
  | RegExp.Alt r1 r2 => Nat.min (minLength r1) (minLength r2)
  | RegExp.Both r1 r2 => Nat.max (minLength r1) (minLength r2)
  end.

(** An upper bound on that length, when the shape of the pattern gives
    one. *)
Fixpoint maxLength (r : RegExp.t) : option nat :=
  match r with
  | RegExp.Fail | RegExp.Empty => Some 0%nat
  | RegExp.Class _ _ => Some 1%nat
  | RegExp.Cat r1 r2 =>
      match maxLength r1, maxLength r2 with
      | Some a, Some b => Some (a + b)%nat
      | _, _ => None
      end
  | RegExp.Alt r1 r2 =>
      match maxLength r1, maxLength r2 with
      | Some a, Some b => Some (Nat.max a b)
      | _, _ => None
      end
  | RegExp.Both r1 r2 =>
      match maxLength r1, maxLength r2 with
      | Some a, Some b => Some (Nat.min a b)
      | Some a, None => Some a
      | None, o => o
      end
  | RegExp.Star _ | RegExp.Not _ => None
  end.

(** The characters that can occur in what a pattern matches. *)
Fixpoint alphabet (r : RegExp.t) (c : ascii) : bool :=
  match r with
  | RegExp.Fail | RegExp.Empty => false
  | RegExp.Class negated items => RegExp.class_matches negated items c
  | RegExp.Cat r1 r2 | RegExp.Alt r1 r2 => alphabet r1 c || alphabet r2 c
  | RegExp.Star r' => alphabet r' c
  | RegExp.Both r1 r2 => alphabet r1 c && alphabet r2 c
  | RegExp.Not _ => true
  end.

End Language.

(** The characters of a string. *)
Definition chars (s : string) : list ascii := list_ascii_of_string s.

(** Whether a string consists of white space only (the empty string
    does). *)
Fixpoint allWhiteSpace (s : string) : bool :=
  match s with
  | EmptyString => true
  | String c s' => JS.isWhiteSpace c && allWhiteSpace s'
  end.

(** A character a phone number may be written with: a digit, one of
    [+ ( ) - .], or white space. *)
Definition phoneCharacter (c : ascii) : bool :=
  ((nat_of_ascii "0" <=? nat_of_ascii c)%nat && (nat_of_ascii c <=? nat_of_ascii "9")%nat)
  || (c =? "+")%char || (c =? "(")%char || (c =? ")")%char || (c =? "-")%char
  || (c =? ".")%char || JS.isWhiteSpace c.

(** A non-empty string without white space and without [@]. *)
Definition plain (t : string) : Prop :=
  t ≠ "" ∧ Forall (λ c, JS.isWhiteSpace c = false ∧ c ≠ "@"%char) (chars t).

(** [local@domain.tld], each part plain. *)
Definition emailShaped (s : string) : Prop :=
  ∃ local domain tld,
    s = local +:+ "@" +:+ domain +:+ "." +:+ tld
    ∧ plain local ∧ plain domain ∧ plain tld.

(* ===================================================================== *)
(** * What the user can do in a session *)
(* ===================================================================== *)

(** The events the rendered form reacts to: typing in a text control
    ([e.target.value], a string), ticking a checkbox ([e.target.checked],
    a boolean), the submit button and the reset button.  A sequence of
    events describes a session for as long as the fetched list stays the
    one that was loaded, that is, up to the first save that succeeds. *)
Inductive Event : Type :=
| TextInput (fieldName : string) (text : string)
| CheckboxInput (fieldName : string) (checked : bool)
| Submit
| Reset.

Definition step (s : Form) (e : Event) : Form :=
  match e with
  | TextInput fieldName text => change fieldName (JS.str text) s
  | CheckboxInput fieldName checked => change fieldName (JS.boolean checked) s
  | Submit => submit s
  | Reset => handleReset s
  end.

Definition run (s : Form) (events : list Event) : Form := foldl step s events.

(** How many edits of [fieldName] a list of events has after its last
    reset. *)
Definition editsSinceReset (fieldName : string) (events : list Event) : nat :=
  foldl (λ n e,
           match e with
           | TextInput k _ | CheckboxInput k _ => if String.eqb k fieldName then S n else n
           | Submit => n
           | Reset => 0%nat
           end) 0%nat events.

(** The last descriptor of a list that has a given name. *)
Definition lastNamed (key : string) (fields : list FormField) : option FormField :=
  last (filter (λ field, name field = key) fields).


(** Whether an event is an edit of the control of [fieldName]. *)
Definition edits (fieldName : string) (e : Event) : bool :=
  match e with
  | TextInput k _ | CheckboxInput k _ => String.eqb k fieldName
  | Submit | Reset => false
  end.

(** Whether the [value] of a descriptor is one its own rule lets through:
    for the name [contact] a string the contact patterns match; for a
    checkbox a boolean or nothing; for a number a number within the
    bounds, or nothing when not required; otherwise a string (matching the
    email or phone pattern for those types, not blank when required), or
    nothing when not required. *)
Definition wellTyped (field : FormField) : bool :=
  if String.eqb (name field) "contact" then
    match value field with
    | JS.str t => RegExp.test emailRegex t || RegExp.test phoneRegex t
    | _ => false
    end
  else if String.eqb (type field) "checkbox" then
    match value field with
    | JS.undefined | JS.boolean _ => true
    | _ => false
    end
  else if String.eqb (type field) "number" then
    match value field with
    | JS.num n => inRange 1 (upperBound field) n
    | JS.undefined => negb (is_required field)
    | _ => false
    end
  else
    match value field with
    | JS.str t =>
        if String.eqb (type field) "email" then RegExp.test Zod.emailRegex t
        else if String.eqb (type field) "tel" then RegExp.test phoneRegex t
        else if is_required field then negb (allWhiteSpace t)
        else true
    | JS.undefined => negb (is_required field)
    | _ => false
    end.

(** A descriptor with its [value] left out. *)
Definition withoutValue (field : FormField) : FormField := with_value field JS.undefined.

(** An optional phone field. *)
Definition phone : FormField :=
  {| name := "phone"; type := "tel"; label := None; value := JS.undefined;
     placeholder := None; required := None; disabled := None; description := None;
     extra := [] |}.

(** A descriptor that is itself named [contact]. *)
Definition contactDescriptor : FormField :=
  {| name := "contact"; type := "text"; label := Some "Contact"; value := JS.undefined;
     placeholder := None; required := None; disabled := None; description := None;
     extra := [] |}.

(** A word character, [\w]: a letter, a digit or the underscore. *)
Definition wordCharacter (c : ascii) : bool :=
  let n := nat_of_ascii c in
  (((48 <=? n) && (n <=? 57)) || ((65 <=? n) && (n <=? 90))
   || ((97 <=? n) && (n <=? 122)) || (n =? 95))%nat.

(** A name the form library uses as a key as it is: not empty and made of
    word characters only. *)
Definition plainName (fieldName : string) : bool :=
  negb (String.eqb fieldName "") && forallb wordCharacter (chars fieldName).

(** An event that, if it is an edit, is the edit of a control with a plain
    name. *)
Definition plainEvent (e : Event) : bool :=
  match e with
  | TextInput k _ | CheckboxInput k _ => plainName k
  | Submit | Reset => true
  end.

(** The live value of [age] is not a falsy number. *)
Definition ageNotFalsyNumber (values : gmap string JS.value) : Prop :=
  ∀ n, JS.get values "age" = JS.num n → JS.ToBoolean (JS.num n) = true.

(* ===================================================================== *)
(** * Properties *)
(* ===================================================================== *)

(** ** The modelled built-ins on a few inputs *)

Example Number_18 : JS.Number (JS.str "18") = JS.of_Z 18.
Proof. reflexivity. Qed.
Example Number_abc : JS.Number (JS.str "abc") = JS.NaN.
Proof. reflexivity. Qed.
Example Number_empty : JS.Number (JS.str "") = S754_zero false.
Proof. reflexivity. Qed.
Example Number_exponent : JS.Number (JS.str " 1.5e1 ") = JS.of_Z 15.
Proof. reflexivity. Qed.
Example Number_tenth : JS.Number (JS.str "0.1") = S754_finite false 7205759403792794 (-56).
Proof. reflexivity. Qed.
Example Number_rounds : JS.Number (JS.str "18.0000000000000000001") = JS.of_Z 18.
Proof. reflexivity. Qed.
Example Number_hex : JS.Number (JS.str "0x1F") = JS.of_Z 31.
Proof. reflexivity. Qed.
Example Number_suffix : JS.Number (JS.str "12px") = JS.NaN.
Proof. reflexivity. Qed.
Example Number_overflow : JS.Number (JS.str "1e400") = S754_infinity false.
Proof. vm_compute. reflexivity. Qed.
Example trim_both : JS.trim "  a b  " = "a b".
Proof. reflexivity. Qed.

Example regexp_star : RegExp.test (RegExp.Star (RegExp.Lit "a")) "aaa" = true. Proof. reflexivity. Qed.
Example regexp_between :
  map (RegExp.test (RegExp.Between 2 1 (RegExp.Lit "a"))) ["a"; "aa"; "aaa"; "aaaa"]
  = [false; true; true; false].
Proof. reflexivity. Qed.

Example phoneRegex_samples :
  map (RegExp.test phoneRegex)
      ["555-123-4567"; "+(555) 123.456789"; "5551234567"; "555123456"; "not-valid"; ""]
  = [true; true; true; false; false; false].
Proof. vm_compute. reflexivity. Qed.

Example emailRegex_samples :
  map (RegExp.test emailRegex) ["user@example.com"; "a@b.c"; "a b@c.d"; "not-valid"; ""]
  = [true; true; false; false; false].
Proof. vm_compute. reflexivity. Qed.

Example zod_emailRegex_samples :
  map (RegExp.test Zod.emailRegex)
      ["user@example.com"; "A.b@C-d.Com"; "a@b.c"; ".a@b.com"; "a..b@c.com"; ""]
  = [true; true; false; false; false; false].
Proof. vm_compute. reflexivity. Qed.

Example required_text :
  map (λ v, Zod.message <$> Zod.issues (Zod._parse (validator Username) (JS.str v)))
      [""; "   "; "a"]
  = [["Username is required"]; ["Username is required"]; []].
Proof. vm_compute. reflexivity. Qed.

(** ** Dictionaries built by one assignment per descriptor *)

Section assignments.
Context {V : Type} (rhs : FormField → V).

Lemma assign_lookup_other (fields : list FormField) (m : gmap string V) (k : string) :
  k ∉ name <$> fields →
  foldl (λ acc field, <[name field := rhs field]> acc) m fields !! k = m !! k.
Proof.
  revert m. induction fields as [|f fields IH]; intros m Hk; simpl; [done|].
  rewrite fmap_cons, not_elem_of_cons in Hk. destruct Hk as [Hne Hk].
  rewrite IH by done. by rewrite lookup_insert_ne.
Qed.

Lemma assign_lookup (fields : list FormField) (m : gmap string V) (field : FormField) :
  NoDup (name <$> fields) → field ∈ fields →
  foldl (λ acc field, <[name field := rhs field]> acc) m fields !! name field
  = Some (rhs field).
Proof.
  revert m. induction fields as [|f fields IH]; intros m Hnd Hin; simpl.
  - by apply elem_of_nil in Hin.
  - rewrite fmap_cons, NoDup_cons in Hnd. destruct Hnd as [Hfresh Hnd].
    apply elem_of_cons in Hin as [->|Hin].
    + rewrite assign_lookup_other by done. apply lookup_insert_eq.
    + by apply IH.
Qed.

Lemma assign_dom (fields : list FormField) (m : gmap string V) :
  dom (foldl (λ acc field, <[name field := rhs field]> acc) m fields)
  = dom m ∪ list_to_set (name <$> fields).
Proof.
  revert m. induction fields as [|f fields IH]; intros m; simpl.
  - set_solver.
  - rewrite IH, dom_insert_L. set_solver.
Qed.
End assignments.

Lemma schema_lookup_contact (fields : list FormField) :
  createValidationSchema fields !! "contact" = Some contactValidator.
Proof. unfold createValidationSchema. apply lookup_insert_eq. Qed.

Lemma schema_lookup (fields : list FormField) (field : FormField) :
  NoDup (name <$> fields) → field ∈ fields → name field ≠ "contact" →
  createValidationSchema fields !! name field = Some (validator field).
Proof.
  intros Hnd Hin Hne. unfold createValidationSchema.
  rewrite lookup_insert_ne by done. by apply assign_lookup.
Qed.

Lemma schema_dom (fields : list FormField) :
  dom (createValidationSchema fields) = list_to_set (name <$> fields) ∪ {["contact"]}.
Proof.
  unfold createValidationSchema. rewrite dom_insert_L, assign_dom. set_solver.
Qed.

Lemma defaultValues_lookup (fields : list FormField) (field : FormField) :
  NoDup (name <$> fields) → field ∈ fields →
  defaultValues fields !! name field = Some (defaultValue field).
Proof. intros. unfold defaultValues. by apply assign_lookup. Qed.

(** ** The resolver, key by key *)

Lemma issues_output (t : Zod.ZodType) (v : JS.value) :
  Zod.issues (Zod._parse t v) = [] → ∃ out, Zod.output (Zod._parse t v) = Some out.
Proof.
  revert v. induction t as [checks|coerce errorMap checks| |inner IH|schema IH refinement msg];
    intros v; simpl.
  - destruct v; simpl; try discriminate. destruct (Zod.stringChecks checks s); simpl; eauto.
  - destruct coerce; [|destruct v]; simpl; try discriminate;
      match goal with |- context [JS.isNaN ?n] => destruct (JS.isNaN n) end;
      simpl; try discriminate; eauto.
  - destruct v; simpl; try discriminate; eauto.
  - destruct v; simpl; eauto.
  - specialize (IH v).
    destruct (Zod.output (Zod._parse schema v)) eqn:Hout; simpl; [eauto|].
    rewrite Hout. exact IH.
Qed.

Lemma resolver_errors (schema : gmap string Zod.ZodType) (values : gmap string JS.value) :
  (ReactHookForm.zodResolver schema values).2
  = omap (λ l, Zod.message <$> head l) (Zod.issuesByPath (Zod.parseShape schema values)).
Proof.
  unfold ReactHookForm.zodResolver, Zod.safeParse.
  destruct (decide _) as [->|]; simpl; [by rewrite omap_empty|done].
Qed.

Lemma resolver_error_at (schema : gmap string Zod.ZodType) (values : gmap string JS.value)
    (key : string) :
  (ReactHookForm.zodResolver schema values).2 !! key
  = schema !! key ≫= λ t, Zod.message <$> head (Zod.issues (Zod._parse t (JS.get values key))).
Proof.
  rewrite resolver_errors, lookup_omap. unfold Zod.issuesByPath, Zod.parseShape.
  rewrite lookup_omap, map_lookup_imap.
  destruct (schema !! key) as [t|]; simpl; [|done].
  by destruct (Zod.issues _).
Qed.

(** A key whose rule raises an issue gets an error. *)
Lemma resolver_error_of_invalid (schema : gmap string Zod.ZodType)
    (values : gmap string JS.value) (key : string) (t : Zod.ZodType) :
  schema !! key = Some t →
  Zod.isValid (Zod._parse t (JS.get values key)) = false →
  is_Some ((ReactHookForm.zodResolver schema values).2 !! key).
Proof.
  intros Ht Hbad. rewrite resolver_error_at, Ht. simpl.
  unfold Zod.isValid in Hbad. destruct (Zod.issues _); [done|simpl; eauto].
Qed.

(** When the resolver reports no error, its values are the outputs of the
    rules. *)
Lemma resolver_values (schema : gmap string Zod.ZodType) (values : gmap string JS.value)
    (key : string) (t : Zod.ZodType) :
  (ReactHookForm.zodResolver schema values).2 = ∅ →
  schema !! key = Some t →
  Zod._parse t (JS.get values key)
  = Zod.OK (JS.get (ReactHookForm.zodResolver schema values).1 key).
Proof.
  intros Hnone Ht.
  assert (Zod.issues (Zod._parse t (JS.get values key)) = []) as Hiss.
  { pose proof (resolver_error_at schema values key) as Hk.
    rewrite Hnone, lookup_empty, Ht in Hk. simpl in Hk.
    by destruct (Zod.issues _). }
  destruct (issues_output _ _ Hiss) as [out Hout].
  assert (JS.get (ReactHookForm.zodResolver schema values).1 key = out) as ->.
  { unfold ReactHookForm.zodResolver, Zod.safeParse.
    destruct (decide _) as [Hempty|Hnon]; simpl.
    - unfold JS.get, Zod.finalObject, Zod.parseShape.
      rewrite !map_lookup_imap, Ht. simpl. rewrite Hout.
      destruct out; simpl; try done. by destruct (values !! key).
    - exfalso. apply Hnon. apply map_eq. intros k. rewrite lookup_empty.
      pose proof (resolver_error_at schema values k) as Hk.
      rewrite Hnone, lookup_empty in Hk.
      unfold Zod.issuesByPath, Zod.parseShape. rewrite lookup_omap, map_lookup_imap.
      destruct (schema !! k) as [t'|]; simpl in *; [|done].
      destruct (Zod.issues (Zod._parse t' (JS.get values k))); [done|discriminate]. }
  destruct (Zod._parse t (JS.get values key)); simpl in *. unfold Zod.OK. congruence.
Qed.

(** ** Submission *)

Lemma submit_errors (s : Form) :
  errors (submit s)
  = (ReactHookForm.zodResolver (createValidationSchema (formFields s)) (values s)).2.
Proof.
  unfold submit, ReactHookForm.handleSubmit.
  destruct (ReactHookForm.zodResolver _ _) as [data errs]. simpl.
  by destruct (decide (errs = ∅)).
Qed.

Lemma submit_blocked (s : Form) :
  (ReactHookForm.zodResolver (createValidationSchema (formFields s)) (values s)).2 ≠ ∅ →
  posted (submit s) = posted s.
Proof.
  unfold submit, ReactHookForm.handleSubmit.
  destruct (ReactHookForm.zodResolver _ _) as [data errs]. simpl. intros Hne.
  by destruct (decide (errs = ∅)).
Qed.

Lemma submit_sent (s : Form) :
  (ReactHookForm.zodResolver (createValidationSchema (formFields s)) (values s)).2 = ∅ →
  posted (submit s)
  = posted s ++ [onSubmit (formFields s)
      (ReactHookForm.zodResolver (createValidationSchema (formFields s)) (values s)).1].
Proof.
  unfold submit, ReactHookForm.handleSubmit.
  destruct (ReactHookForm.zodResolver _ _) as [data errs]. simpl. intros ->.
  by destruct (decide _).
Qed.

Lemma submit_values (s : Form) : values (submit s) = values s.
Proof.
  unfold submit. by destruct (ReactHookForm.handleSubmit _ _ _).
Qed.

Lemma submit_formFields (s : Form) : formFields (submit s) = formFields s.
Proof.
  unfold submit. by destruct (ReactHookForm.handleSubmit _ _ _).
Qed.

(* ===================================================================== *)
(** * The Default Value Deriver *)
(* ===================================================================== *)

(** C1, as stated, fails: a present numeric value 0 is not kept as it is;
    the derived default of [quantity] is the empty string, because
    [field.value || ''] tests truthiness and not presence. *)
Lemma defaultValues_drops_zero :
  value quantity = JS.num (S754_zero false)
  ∧ spec_defaultValue quantity = JS.num (S754_zero false)
  ∧ defaultValues [quantity] !! "quantity" = Some (JS.str "")
  ∧ defaultValues [quantity] !! name quantity ≠ Some (spec_defaultValue quantity).
Proof. repeat split. vm_compute. discriminate. Qed.

(** C1, amended: for every descriptor list with unique names the derived
    map has an entry for exactly the descriptor names; the entry of a
    checkbox descriptor is its [value] coerced to boolean (so [false] when
    absent); the entry of any other descriptor is its [value] when that
    value is truthy and the empty string when it is falsy (absent, the
    empty string, but also 0, NaN and [false]).  It is the value the
    specification words whenever the value is truthy, absent or the empty
    string. *)
Theorem defaultValues_entries (fields : list FormField) (field : FormField) :
  NoDup (name <$> fields) → field ∈ fields →
  dom (defaultValues fields) = list_to_set (name <$> fields)
  ∧ ∃ v, defaultValues fields !! name field = Some v
    ∧ (type field = "checkbox" → v = JS.boolean (JS.ToBoolean (value field)))
    ∧ (type field ≠ "checkbox" → JS.ToBoolean (value field) = true → v = value field)
    ∧ (type field ≠ "checkbox" → JS.ToBoolean (value field) = false → v = JS.str "")
    ∧ (JS.ToBoolean (value field) = true ∨ value field = JS.undefined
       ∨ value field = JS.str "" → v = spec_defaultValue field).
Proof.
  intros Hnd Hin. split.
  { unfold defaultValues. rewrite assign_dom. set_solver. }
  exists (defaultValue field). split; [by apply defaultValues_lookup|].
  unfold defaultValue, spec_defaultValue, JS.or.
  destruct (String.eqb_spec (type field) "checkbox") as [Hty|Hty].
  - repeat split; try done.
  - repeat split; try done.
    + by intros _ ->.
    + by intros _ ->.
    + intros [Ht|[Hu|Hs]].
      * rewrite Ht. by destruct (value field).
      * by rewrite Hu.
      * by rewrite Hs.
Qed.

Lemma defaultValues_entries_witness :
  dom (defaultValues initialFields) = list_to_set (name <$> initialFields)
  ∧ ∃ v, defaultValues initialFields !! name terms_001 = Some v
    ∧ (type terms_001 = "checkbox" → v = JS.boolean (JS.ToBoolean (value terms_001)))
    ∧ (type terms_001 ≠ "checkbox" → JS.ToBoolean (value terms_001) = true
       → v = value terms_001)
    ∧ (type terms_001 ≠ "checkbox" → JS.ToBoolean (value terms_001) = false
       → v = JS.str "")
    ∧ (JS.ToBoolean (value terms_001) = true ∨ value terms_001 = JS.undefined
       ∨ value terms_001 = JS.str "" → v = spec_defaultValue terms_001).
Proof.
  apply (defaultValues_entries initialFields terms_001).
  - simpl. repeat constructor; set_solver.
  - unfold initialFields. set_solver.
Defined.

Example default_checkbox_absent :
  defaultValues initialFields !! "terms_001" = Some (JS.boolean false).
Proof. reflexivity. Qed.

Example default_text_present :
  defaultValues [with_value Username (JS.str "shadcn")] !! "Username" = Some (JS.str "shadcn").
Proof. reflexivity. Qed.

(* ===================================================================== *)
(** * The Schema Builder *)
(* ===================================================================== *)

Lemma validator_default (field : FormField) :
  type field ∉ ["email"; "number"; "tel"; "checkbox"] →
  validator field = genericStringRule field.
Proof.
  intros Hty. unfold validator, genericStringRule.
  destruct (String.eqb_spec (type field) "email") as [Heq|_];
    [rewrite Heq in Hty; set_solver|].
  destruct (String.eqb_spec (type field) "number") as [Heq|_];
    [rewrite Heq in Hty; set_solver|].
  destruct (String.eqb_spec (type field) "tel") as [Heq|_];
    [rewrite Heq in Hty; set_solver|].
  destruct (String.eqb_spec (type field) "checkbox") as [Heq|_];
    [rewrite Heq in Hty; set_solver|].
  done.
Qed.

(** C3, as stated, fails when a descriptor is itself named [contact] (a
    case line 187 provides for): with unique names the ruleset then has as
    many rules as there are descriptors, not one more, and the rule the
    [switch] built for that descriptor, here the default generic-string
    rule, is replaced by the synthetic one on line 66. *)
Lemma contact_descriptor_overwritten :
  NoDup (name <$> [Username; contactDescriptor])
  ∧ size (createValidationSchema [Username; contactDescriptor]) = 2%nat
  ∧ (type contactDescriptor ∉ ["email"; "number"; "tel"; "checkbox"])
  ∧ createValidationSchema [Username; contactDescriptor] !! name contactDescriptor
    = Some contactValidator
  ∧ createValidationSchema [Username; contactDescriptor] !! name contactDescriptor
    ≠ Some (genericStringRule contactDescriptor).
Proof.
  split; [simpl; repeat constructor; set_solver|]. split; [reflexivity|].
  split; [simpl; set_solver|]. split; [reflexivity|]. discriminate.
Qed.

(** C3, amended: for every descriptor list with unique names, the keys of
    the built ruleset are exactly the descriptor names together with
    [contact], one rule each; the rule under [contact] is the synthetic
    one, also when a descriptor has that name; the rule under the name of
    any other descriptor is the one the [switch] gives that descriptor;
    so there is one rule more than there are descriptors when none is
    named [contact] and as many rules as descriptors when one is; and the
    [switch] gives a descriptor of unknown type the default generic-string
    rule.  The builder is a total function: it returns a ruleset for
    every list. *)
Theorem schema_rules (fields : list FormField) :
  NoDup (name <$> fields) →
  dom (createValidationSchema fields) = list_to_set (name <$> fields) ∪ {["contact"]}
  ∧ createValidationSchema fields !! "contact" = Some contactValidator
  ∧ (∀ field, field ∈ fields →
       createValidationSchema fields !! name field
       = Some (if String.eqb (name field) "contact" then contactValidator
               else validator field))
  ∧ size (createValidationSchema fields)
    = (if decide ("contact" ∈ name <$> fields) then length fields else S (length fields))
  ∧ (∀ field, type field ∉ ["email"; "number"; "tel"; "checkbox"] →
       validator field = genericStringRule field).
Proof.
  intros Hnd. split; [apply schema_dom|]. split; [apply schema_lookup_contact|].
  split; [|split; [|intros field; apply validator_default]].
  - intros field Hin. destruct (String.eqb_spec (name field) "contact") as [->|Hne].
    + apply schema_lookup_contact.
    + by apply schema_lookup.
  - rewrite <- size_dom, schema_dom. destruct (decide _) as [Hin|Hfresh].
    + replace (list_to_set (name <$> fields) ∪ {["contact"]})
        with (list_to_set (name <$> fields) : gset string) by set_solver.
      rewrite size_list_to_set by done. apply length_fmap.
    + rewrite size_union by set_solver.
      rewrite size_list_to_set by done. rewrite size_singleton, length_fmap. lia.
Qed.

Lemma schema_rules_witness :
  dom (createValidationSchema initialFields)
    = list_to_set (name <$> initialFields) ∪ {["contact"]}
  ∧ createValidationSchema initialFields !! "contact" = Some contactValidator
  ∧ (∀ field, field ∈ initialFields →
       createValidationSchema initialFields !! name field
       = Some (if String.eqb (name field) "contact" then contactValidator
               else validator field))
  ∧ size (createValidationSchema initialFields)
    = (if decide ("contact" ∈ name <$> initialFields) then length initialFields
       else S (length initialFields))
  ∧ (∀ field, type field ∉ ["email"; "number"; "tel"; "checkbox"] →
       validator field = genericStringRule field).
Proof.
  apply (schema_rules initialFields).
  simpl. repeat constructor; set_solver.
Defined.

Example schema_size_initial : size (createValidationSchema initialFields) = 4%nat.
Proof. reflexivity. Qed.

Example schema_unknown_type :
  validator (with_value {| name := "when"; type := "date"; label := None;
                           value := JS.undefined; placeholder := None; required := None;
                           disabled := None; description := None; extra := [] |}
               JS.undefined)
  = Zod.ZodOptional (Zod.ZodString []).
Proof. reflexivity. Qed.

(* ===================================================================== *)
(** * The synthetic contact rule on submission *)
(* ===================================================================== *)

(** C2, as stated, fails in what it says rejects an absent [contact]: in
    the form as loaded the entry is absent, and it is the string type test
    of [z.string()] that refuses it, with an issue of kind [invalid_type];
    the refinement is not run and raises nothing. *)
Lemma absent_contact_not_refined :
  values (mount initialFields) !! "contact" = None
  ∧ Zod.code <$> Zod.issues (Zod._parse contactValidator
                               (JS.get (values (mount initialFields)) "contact"))
    = [Zod.invalid_type]
  ∧ Zod.custom ∉ Zod.code <$> Zod.issues (Zod._parse contactValidator
                                            (JS.get (values (mount initialFields)) "contact")).
Proof. split; [reflexivity|]. split; [reflexivity|]. simpl. set_solver. Qed.

(** C2, amended: the [contact] rule is part of every full validation,
    whether or not the contact control is shown.  For every session whose
    live [contact] value is missing, [undefined] or the empty string,
    validation fails on [contact]: a missing or [undefined] value is
    refused by the string type test (an [invalid_type] issue, "Required",
    the refinement not being run), the empty string by the refinement (a
    [custom] issue with its message); submitting then reports that error,
    sends nothing and leaves the live values as they were. *)
Theorem contact_blocks_submission (s : Form) :
  JS.get (values s) "contact" = JS.undefined ∨ JS.get (values s) "contact" = JS.str "" →
  Zod.issues (Zod._parse contactValidator (JS.get (values s) "contact"))
    = [match JS.get (values s) "contact" with
       | JS.str _ => {| Zod.code := Zod.custom;
                        Zod.message := "Please enter a valid email or phone number" |}
       | _ => {| Zod.code := Zod.invalid_type; Zod.message := "Required" |}
       end]
  ∧ errors (submit s) !! "contact"
    = Some (match JS.get (values s) "contact" with
            | JS.str _ => "Please enter a valid email or phone number"
            | _ => "Required"
            end)
  ∧ posted (submit s) = posted s
  ∧ values (submit s) = values s.
Proof.
  intros Hcontact.
  assert (Zod.issues (Zod._parse contactValidator (JS.get (values s) "contact"))
          = [match JS.get (values s) "contact" with
             | JS.str _ => {| Zod.code := Zod.custom;
                              Zod.message := "Please enter a valid email or phone number" |}
             | _ => {| Zod.code := Zod.invalid_type; Zod.message := "Required" |}
             end]) as Hissues.
  { by destruct Hcontact as [-> | ->]. }
  assert (errors (submit s) !! "contact"
          = Some (match JS.get (values s) "contact" with
                  | JS.str _ => "Please enter a valid email or phone number"
                  | _ => "Required"
                  end)) as Herr.
  { rewrite submit_errors, resolver_error_at, schema_lookup_contact.
    by destruct Hcontact as [-> | ->]. }
  split; [exact Hissues|]. split; [exact Herr|]. split; [|apply submit_values].
  apply submit_blocked. rewrite <- submit_errors. intros Hnone.
  rewrite Hnone, lookup_empty in Herr. discriminate.
Qed.

(** The session right after loading the initial descriptors: [age] is 18,
    so the contact control is not shown, and the form cannot be sent. *)
Lemma contact_blocks_submission_witness :
  (JS.get (values (mount initialFields)) "contact" = JS.undefined
   ∨ JS.get (values (mount initialFields)) "contact" = JS.str "")
  ∧ Zod.issues (Zod._parse contactValidator (JS.get (values (mount initialFields)) "contact"))
    = [match JS.get (values (mount initialFields)) "contact" with
       | JS.str _ => {| Zod.code := Zod.custom;
                        Zod.message := "Please enter a valid email or phone number" |}
       | _ => {| Zod.code := Zod.invalid_type; Zod.message := "Required" |}
       end]
  ∧ errors (submit (mount initialFields)) !! "contact"
    = Some (match JS.get (values (mount initialFields)) "contact" with
            | JS.str _ => "Please enter a valid email or phone number"
            | _ => "Required"
            end)
  ∧ posted (submit (mount initialFields)) = posted (mount initialFields)
  ∧ values (submit (mount initialFields)) = values (mount initialFields).
Proof.
  split; [left; reflexivity|].
  apply (contact_blocks_submission (mount initialFields)). left. reflexivity.
Defined.

Example contact_key_holding_undefined :
  errors (submit (change "contact" JS.undefined (mount initialFields))) !! "contact"
  = Some "Required".
Proof. reflexivity. Qed.

Example contact_hidden_at_18 :
  render initialFields (values (mount initialFields))
  = [Control Username; Control age; Control terms_001].
Proof. reflexivity. Qed.

(* ===================================================================== *)
(** * Number rules *)
(* ===================================================================== *)

(** ** Comparisons of numbers *)

Lemma SFcompare_antisym (x y : JS.number) :
  SFcompare y x = CompOpp <$> SFcompare x y.
Proof.
  destruct x as [sx|sx| |sx mx ex], y as [sy|sy| |sy my ey]; simpl; try done;
    try (by destruct sx); try (by destruct sy); try (by destruct sx, sy).
  destruct sx, sy; simpl; try done; f_equal;
    rewrite (Z.compare_antisym ex ey); destruct (ex ?= ey); simpl; try done.
  - f_equal. symmetry. exact (Pos.compare_cont_antisym mx my Eq).
  - symmetry. exact (Pos.compare_cont_antisym mx my Eq).
Qed.

Lemma compare_defined (x y : JS.number) :
  JS.isNaN x = false → JS.isNaN y = false → ∃ c, SFcompare x y = Some c.
Proof.
  destruct x, y; simpl; try discriminate; eauto.
Qed.

(** [x < y] is false exactly when [x >= y], NaN apart. *)
Lemma not_lt_ge (x y : JS.number) :
  JS.isNaN x = false → JS.isNaN y = false → negb (JS.lt x y) = JS.ge x y.
Proof.
  intros Hx Hy. unfold JS.lt, JS.ge, SFltb, SFleb. rewrite (SFcompare_antisym x y).
  destruct (compare_defined x y Hx Hy) as [c ->]. by destruct c.
Qed.

(** [x > y] is false exactly when [x <= y], NaN apart. *)
Lemma not_gt_le (x y : JS.number) :
  JS.isNaN x = false → JS.isNaN y = false → negb (JS.gt x y) = JS.le x y.
Proof.
  intros Hx Hy. unfold JS.gt, JS.le, SFltb, SFleb. rewrite (SFcompare_antisym x y).
  destruct (compare_defined x y Hx Hy) as [c ->]. by destruct c.
Qed.

Lemma inRange_NaN (lo hi : Z) (n : JS.number) : JS.isNaN n = true → inRange lo hi n = false.
Proof. destruct n; try discriminate. intros _. unfold inRange, JS.ge, JS.le, SFleb.
  by destruct (JS.of_Z lo). Qed.

(** ** The rule [z.coerce.number(...).min(lo, ...).max(hi, ...)] *)

Section coerced_number.
Context (errorMap m1 m2 : option string) (lo hi : Z).
Hypothesis lo_number : JS.isNaN (JS.of_Z lo) = false.
Hypothesis hi_number : JS.isNaN (JS.of_Z hi) = false.

Lemma coerced_number_valid (v : JS.value) :
  Zod.isValid (Zod._parse (boundedNumber errorMap m1 m2 lo hi) v)
  = inRange lo hi (JS.Number v).
Proof.
  unfold boundedNumber. simpl. destruct (JS.isNaN (JS.Number v)) eqn:Hnan.
  - by rewrite inRange_NaN.
  - unfold Zod.isValid, inRange. simpl.
    rewrite <- not_lt_ge, <- not_gt_le by done.
    by destruct (JS.lt _ _), (JS.gt _ _).
Qed.

Lemma coerced_number_output (v : JS.value) :
  JS.isNaN (JS.Number v) = false →
  Zod.output (Zod._parse (boundedNumber errorMap m1 m2 lo hi) v)
  = Some (JS.num (JS.Number v)).
Proof. unfold boundedNumber. simpl. by intros ->. Qed.

Lemma coerced_number_NaN (v : JS.value) :
  JS.isNaN (JS.Number v) = true →
  Zod._parse (boundedNumber errorMap m1 m2 lo hi) v
  = Zod.INVALID (Zod.makeIssue Zod.invalid_type None errorMap "Expected number, received nan").
Proof.
  unfold boundedNumber. simpl. intros Hnan. rewrite Hnan. unfold Zod.invalid_type_issue.
  simpl. by rewrite Hnan.
Qed.
End coerced_number.

(** ** The rule of a [number] descriptor *)

Lemma of_Z_1_number : JS.isNaN (JS.of_Z 1) = false. Proof. reflexivity. Qed.
Lemma of_Z_100_number : JS.isNaN (JS.of_Z 100) = false. Proof. reflexivity. Qed.
Lemma of_Z_120_number : JS.isNaN (JS.of_Z 120) = false. Proof. reflexivity. Qed.

Lemma number_validator (field : FormField) :
  type field = "number" →
  ∃ errorMap m1 m2,
    let rule := boundedNumber errorMap m1 m2 1 (upperBound field) in
    validator field = (if is_required field then rule else Zod.ZodOptional rule)
    ∧ errorMap = (if String.eqb (name field) "age" && is_required field
                  then Some "Age must be a number" else None).
Proof.
  intros Hty. unfold validator, upperBound, boundedNumber. rewrite Hty. simpl.
  destruct (String.eqb (name field) "age"), (is_required field); simpl; eauto 10.
Qed.

Lemma upperBound_number (field : FormField) : JS.isNaN (JS.of_Z (upperBound field)) = false.
Proof. unfold upperBound. by destruct (String.eqb _ _). Qed.

(** C4, as stated, fails for an [age] descriptor that is not required: its
    rule is built without the custom messages, so "abc" is refused with
    the library's own message and not with "Age must be a number"; and it
    accepts an absent value, which no coercion brings into [1,120]. *)
Lemma optional_age_plain_message :
  type optionalAge = "number" ∧ name optionalAge = "age"
  ∧ Zod.issues (Zod._parse (validator optionalAge) (JS.str "abc"))
    = [{| Zod.code := Zod.invalid_type; Zod.message := "Expected number, received nan" |}]
  ∧ Zod.message <$> head (Zod.issues (Zod._parse (validator optionalAge) (JS.str "abc")))
    ≠ Some "Age must be a number"
  ∧ Zod.isValid (Zod._parse (validator optionalAge) JS.undefined) = true
  ∧ inRange 1 120 (JS.Number JS.undefined) = false.
Proof. repeat split. vm_compute. discriminate. Qed.

(** C4, amended: the rule of a [number] descriptor coerces its input with
    [Number] and, the descriptor being required, accepts exactly the
    inputs whose coerced value lies in [1,120] when the descriptor is
    named [age] and in [1,100] otherwise; a descriptor that is not
    required accepts the absent value besides.  An accepted input comes
    out as the coerced number.  An input whose coercion is not a number
    is refused with "Age must be a number" by a required [age] descriptor
    and with the library's "Expected number, received nan" by any other
    number descriptor (an absent input to an optional one being accepted
    instead). *)
Theorem number_rule (field : FormField) (v : JS.value) :
  type field = "number" →
  let hi := if String.eqb (name field) "age" then 120 else 100 in
  let r := Zod._parse (validator field) v in
  Zod.isValid r
    = (if is_required field then inRange 1 hi (JS.Number v)
       else match v with JS.undefined => true | _ => inRange 1 hi (JS.Number v) end)
  ∧ (Zod.isValid r = true →
     Zod.output r
       = Some (if is_required field then JS.num (JS.Number v)
               else match v with JS.undefined => JS.undefined | _ => JS.num (JS.Number v) end))
  ∧ (JS.isNaN (JS.Number v) = true → is_required field = true ∨ v ≠ JS.undefined →
     Zod.issues r
       = [{| Zod.code := Zod.invalid_type;
             Zod.message := if String.eqb (name field) "age" && is_required field
                            then "Age must be a number"
                            else "Expected number, received nan" |}]).
Proof.
  intros Hty hi r. subst hi r.
  destruct (number_validator field Hty) as (errorMap & m1 & m2 & Hrule & HerrorMap).
  simpl in Hrule. fold (upperBound field).
  pose proof (coerced_number_valid errorMap m1 m2 1 (upperBound field)
                of_Z_1_number (upperBound_number field)) as Hvalid.
  pose proof (coerced_number_output errorMap m1 m2 1 (upperBound field)) as Hout.
  pose proof (coerced_number_NaN errorMap m1 m2 1 (upperBound field)) as Hnan.
  rewrite Hrule.
  assert (∀ rule, v ≠ JS.undefined →
            Zod._parse (Zod.ZodOptional rule) v = Zod._parse rule v) as Hopt.
  { intros rule Hv. by destruct v. }
  assert (∀ n, inRange 1 (upperBound field) n = true → JS.isNaN n = false) as Hin.
  { intros n Hn. destruct (JS.isNaN n) eqn:E; [|done]. by rewrite inRange_NaN in Hn. }
  destruct (is_required field) eqn:Hreq.
  - split; [apply Hvalid|]. split.
    + rewrite Hvalid. intros Hok. by apply Hout, Hin.
    + intros Hnot _. rewrite Hnan by done. rewrite HerrorMap, andb_true_r.
      simpl. by destruct (String.eqb (name field) "age").
  - assert (v = JS.undefined ∨ v ≠ JS.undefined) as [->|Hv]
      by (destruct v; [by left|by right..]).
    + repeat split; try done. by intros _ [?|?].
    + rewrite Hopt by done. split; [|split].
      * rewrite Hvalid. by destruct v.
      * rewrite Hvalid. intros Hok. rewrite Hout by by apply Hin. by destruct v.
      * intros Hnot _. rewrite Hnan by done. by rewrite HerrorMap, andb_false_r.
Qed.

Lemma number_rule_witness :
  type age = "number"
  ∧ let hi := if String.eqb (name age) "age" then 120 else 100 in
    let r := Zod._parse (validator age) (JS.str "abc") in
    Zod.isValid r
      = (if is_required age then inRange 1 hi (JS.Number (JS.str "abc"))
         else match JS.str "abc" with
              | JS.undefined => true
              | _ => inRange 1 hi (JS.Number (JS.str "abc"))
              end)
    ∧ (Zod.isValid r = true →
       Zod.output r
         = Some (if is_required age then JS.num (JS.Number (JS.str "abc"))
                 else match JS.str "abc" with
                      | JS.undefined => JS.undefined
                      | _ => JS.num (JS.Number (JS.str "abc"))
                      end))
    ∧ (JS.isNaN (JS.Number (JS.str "abc")) = true →
       is_required age = true ∨ JS.str "abc" ≠ JS.undefined →
       Zod.issues r
         = [{| Zod.code := Zod.invalid_type;
               Zod.message := if String.eqb (name age) "age" && is_required age
                              then "Age must be a number"
                              else "Expected number, received nan" |}]).
Proof.
  split; [reflexivity|].
  apply (number_rule age (JS.str "abc")). reflexivity.
Defined.

Example age_121_fails :
  Zod.isValid (Zod._parse (validator age) (JS.num (JS.of_Z 121))) = false
  ∧ Zod.isValid (Zod._parse (validator age) (JS.str "121")) = false.
Proof. split; reflexivity. Qed.

Example age_18_passes :
  Zod._parse (validator age) (JS.num (JS.of_Z 18)) = Zod.OK (JS.num (JS.of_Z 18))
  ∧ Zod._parse (validator age) (JS.str "18") = Zod.OK (JS.num (JS.of_Z 18)).
Proof. split; reflexivity. Qed.

Example age_abc_fails :
  Zod._parse (validator age) (JS.str "abc")
  = Zod.INVALID {| Zod.code := Zod.invalid_type; Zod.message := "Age must be a number" |}.
Proof. reflexivity. Qed.

Example other_number_bounds :
  map (λ v, Zod.isValid (Zod._parse (validator quantity) (JS.str v)))
      ["0"; "1"; "100"; "100.5"; "101"; "120"]
  = [false; true; true; false; false; false].
Proof. reflexivity. Qed.

(* ===================================================================== *)
(** * Submission: what is sent, and when nothing is *)
(* ===================================================================== *)

Lemma schema_has_rule (fields : list FormField) (field : FormField) :
  field ∈ fields → is_Some (createValidationSchema fields !! name field).
Proof.
  intros Hin. apply elem_of_dom. rewrite schema_dom.
  apply elem_of_union_l, elem_of_list_to_set, list_elem_of_fmap. eauto.
Qed.

(** C5: when a submission passes the full validation, one list is sent; it
    has one entry per fetched descriptor, in the same order and under the
    same names (so none for the synthetic [contact]); each entry has every
    property of its descriptor unchanged but [value], which is what the
    field's rule made of the live value of that name (the coerced value).
    This holds in particular when nothing was edited since loading. *)
Theorem submit_sends_merged_descriptors (s : Form) :
  errors (submit s) = ∅ →
  ∃ body, posted (submit s) = posted s ++ [body]
    ∧ length body = length (formFields s)
    ∧ name <$> body = name <$> formFields s
    ∧ ∀ i field, formFields s !! i = Some field →
        ∃ sent rule coerced,
          body !! i = Some sent
          ∧ createValidationSchema (formFields s) !! name field = Some rule
          ∧ Zod._parse rule (JS.get (values s) (name field)) = Zod.OK coerced
          ∧ value sent = coerced
          ∧ name sent = name field ∧ type sent = type field
          ∧ label sent = label field ∧ placeholder sent = placeholder field
          ∧ required sent = required field ∧ disabled sent = disabled field
          ∧ description sent = description field ∧ extra sent = extra field.
Proof.
  rewrite submit_errors. intros Hnone.
  exists (onSubmit (formFields s)
            (ReactHookForm.zodResolver (createValidationSchema (formFields s)) (values s)).1).
  split; [by apply submit_sent|]. unfold onSubmit.
  split; [apply length_fmap|]. split.
  { rewrite <- list_fmap_compose. by apply list_fmap_ext. }
  intros i field Hi.
  destruct (schema_has_rule (formFields s) field) as [rule Hrule].
  { by eapply list_elem_of_lookup_2. }
  eexists _, rule, _. split; [by rewrite list_lookup_fmap, Hi|].
  split; [exact Hrule|]. split; [by apply resolver_values|]. by simpl.
Qed.

Lemma submit_sends_merged_descriptors_witness :
  errors (submit filledIn) = ∅
  ∧ ∃ body, posted (submit filledIn) = posted filledIn ++ [body]
    ∧ length body = length (formFields filledIn)
    ∧ name <$> body = name <$> formFields filledIn
    ∧ ∀ i field, formFields filledIn !! i = Some field →
        ∃ sent rule coerced,
          body !! i = Some sent
          ∧ createValidationSchema (formFields filledIn) !! name field = Some rule
          ∧ Zod._parse rule (JS.get (values filledIn) (name field)) = Zod.OK coerced
          ∧ value sent = coerced
          ∧ name sent = name field ∧ type sent = type field
          ∧ label sent = label field ∧ placeholder sent = placeholder field
          ∧ required sent = required field ∧ disabled sent = disabled field
          ∧ description sent = description field ∧ extra sent = extra field.
Proof.
  split; [vm_compute; reflexivity|].
  apply (submit_sends_merged_descriptors filledIn). vm_compute. reflexivity.
Defined.

Example filledIn_sent :
  posted (submit filledIn)
  = [[ with_value Username (JS.str "shadcn");
       with_value age (JS.num (JS.of_Z 18));
       with_value terms_001 (JS.boolean false) ]].
Proof. vm_compute. reflexivity. Qed.

(** C6: when some field fails its rule, submitting sends nothing and the
    live values stay exactly as they were; the failing field gets an
    error. *)
Theorem invalid_field_blocks_submission (s : Form) (key : string) (rule : Zod.ZodType) :
  createValidationSchema (formFields s) !! key = Some rule →
  Zod.isValid (Zod._parse rule (JS.get (values s) key)) = false →
  posted (submit s) = posted s
  ∧ values (submit s) = values s
  ∧ is_Some (errors (submit s) !! key).
Proof.
  intros Hrule Hbad.
  pose proof (resolver_error_of_invalid _ (values s) key rule Hrule Hbad) as Herr.
  split; [|split; [apply submit_values|by rewrite submit_errors]].
  apply submit_blocked. intros Hnone. rewrite Hnone, lookup_empty in Herr.
  by destruct Herr.
Qed.

Lemma invalid_field_blocks_submission_witness :
  createValidationSchema (formFields tooOld) !! "age" = Some (validator age)
  ∧ Zod.isValid (Zod._parse (validator age) (JS.get (values tooOld) "age")) = false
  ∧ posted (submit tooOld) = posted tooOld
  ∧ values (submit tooOld) = values tooOld
  ∧ is_Some (errors (submit tooOld) !! "age").
Proof.
  split; [reflexivity|]. split; [reflexivity|].
  apply (invalid_field_blocks_submission tooOld "age" (validator age)); reflexivity.
Defined.

Example tooOld_kept :
  posted (submit tooOld) = []
  ∧ values (submit tooOld) !! "Username" = Some (JS.str " shadcn ")
  ∧ values (submit tooOld) !! "contact" = Some (JS.str "user@example.com")
  ∧ values (submit tooOld) !! "age" = Some (JS.str "121")
  ∧ errors (submit tooOld) !! "age" = Some "Age must be less than 120".
Proof. vm_compute. repeat split. Qed.

(* ===================================================================== *)
(** * Visibility *)
(* ===================================================================== *)

Lemma showPhoneEmail_truthy (values : gmap string JS.value) :
  JS.ToBoolean (showPhoneEmail values)
  = JS.ToBoolean (JS.get values "age")
    && JS.gt (JS.Number (JS.get values "age")) (JS.of_Z 18).
Proof.
  unfold showPhoneEmail, JS.and.
  destruct (JS.ToBoolean (JS.get values "age")) eqn:Hage; simpl; done.
Qed.

(** C7: the contact control is shown exactly when the live value of [age]
    is truthy and its coercion to a number is greater than 18; and the
    controls shown for descriptors are those of the fetched descriptors
    not named [contact], so a descriptor of that name is never shown. *)
Theorem contact_visibility (fields : list FormField) (values : gmap string JS.value) :
  (ContactControl ∈ render fields values
   ↔ JS.ToBoolean (JS.get values "age") = true
     ∧ JS.gt (JS.Number (JS.get values "age")) (JS.of_Z 18) = true)
  ∧ (∀ field, Control field ∈ render fields values
              ↔ field ∈ fields ∧ name field ≠ "contact").
Proof.
  unfold render. split.
  - rewrite elem_of_app, <- andb_true_iff, <- showPhoneEmail_truthy. split.
    + intros [Hin|Hin].
      * apply list_elem_of_In, in_flat_map in Hin as (f & _ & Hf).
        destruct (negb _); simpl in Hf; [by destruct Hf|done].
      * destruct (JS.ToBoolean (showPhoneEmail values)); [done|].
        destruct (showPhoneEmail values); set_solver.
    + intros ->. right. set_solver.
  - intros field. rewrite elem_of_app. split.
    + intros [Hin|Hin].
      * apply list_elem_of_In, in_flat_map in Hin as (f & Hf & Hin).
        destruct (String.eqb_spec (name f) "contact") as [|Hne]; simpl in Hin; [done|].
        destruct Hin as [[= ->]|[]]. split; [by apply list_elem_of_In|done].
      * destruct (JS.ToBoolean (showPhoneEmail values)); [set_solver|].
        destruct (showPhoneEmail values); set_solver.
    + intros [Hin Hne]. left. apply list_elem_of_In, in_flat_map.
      exists field. split; [by apply list_elem_of_In|].
      destruct (String.eqb_spec (name field) "contact"); [done|]. simpl. by left.
Qed.

Example contact_shown_at_19 :
  render [] {[ "age" := JS.str "19" ]} = [ContactControl]
  ∧ render [] {[ "age" := JS.num (JS.of_Z 19) ]} = [ContactControl].
Proof. split; reflexivity. Qed.

Example contact_hidden :
  render [] {[ "age" := JS.str "18" ]} = []
  ∧ render [] {[ "age" := JS.num (JS.of_Z 18) ]} = []
  ∧ render [] {[ "age" := JS.str "abc" ]} = []
  ∧ render [] {[ "age" := JS.str "" ]} = []
  ∧ render [] ∅ = [].
Proof. repeat split. Qed.

Example contact_descriptor_not_shown :
  render [with_value Username (JS.str "x"); {| name := "contact"; type := "text";
            label := None; value := JS.str "a@b.cd"; placeholder := None;
            required := None; disabled := None; description := None; extra := [] |}]
         {[ "age" := JS.str "12" ]}
  = [Control (with_value Username (JS.str "x"))].
Proof. reflexivity. Qed.

(* ===================================================================== *)
(** * The contact rule *)
(* ===================================================================== *)

(** C8, as stated, fails on a value that is not a string: an absent
    [contact], which matches neither pattern, is refused by [z.string()]
    with "Required" before the refinement is reached, and not with the
    refinement's message. *)
Lemma contact_absent_message :
  contactRefinement JS.undefined = false
  ∧ Zod._parse contactValidator JS.undefined
    = Zod.INVALID {| Zod.code := Zod.invalid_type; Zod.message := "Required" |}
  ∧ Zod.message <$> head (Zod.issues (Zod._parse contactValidator JS.undefined))
    ≠ Some "Please enter a valid email or phone number".
Proof. repeat split. vm_compute. discriminate. Qed.

(** C8, amended: the ruleset built from any descriptor list has the
    synthetic rule under [contact]; that rule accepts a string exactly
    when it matches the email pattern or the phone pattern, and refuses
    any other string with "Please enter a valid email or phone number";
    a value that is not a string (an absent one included) is refused by
    the string type test with the library's message.  In particular
    "user@example.com" and "555-123-4567" pass and "not-valid" fails. *)
Theorem contact_rule (fields : list FormField) :
  createValidationSchema fields !! "contact" = Some contactValidator
  ∧ (∀ s, Zod._parse contactValidator (JS.str s)
          = if RegExp.test emailRegex s || RegExp.test phoneRegex s
            then Zod.OK (JS.str s)
            else {| Zod.output := Some (JS.str s);
                    Zod.issues := [{| Zod.code := Zod.custom;
                                      Zod.message :=
                                        "Please enter a valid email or phone number" |}] |})
  ∧ (∀ v, match v with
          | JS.str _ => True
          | _ => Zod._parse contactValidator v
                 = Zod.INVALID (Zod.invalid_type_issue Zod.t_string v None)
          end)
  ∧ Zod.isValid (Zod._parse contactValidator (JS.str "user@example.com")) = true
  ∧ Zod.isValid (Zod._parse contactValidator (JS.str "555-123-4567")) = true
  ∧ Zod.isValid (Zod._parse contactValidator (JS.str "not-valid")) = false.
Proof.
  split; [apply schema_lookup_contact|]. split.
  { intros s. simpl. by destruct (_ || _). }
  split; [by intros []|]. by vm_compute.
Qed.

(* ===================================================================== *)
(** * Checkbox rules *)
(* ===================================================================== *)

(** C9: the rule of a checkbox descriptor is an optional boolean whatever
    its [required] flag: unchecked ([false]), checked and absent all
    pass. *)
Theorem checkbox_rule (field : FormField) :
  type field = "checkbox" →
  validator field = Zod.ZodOptional Zod.ZodBoolean
  ∧ (∀ b, Zod._parse (validator field) (JS.boolean b) = Zod.OK (JS.boolean b))
  ∧ Zod._parse (validator field) JS.undefined = Zod.OK JS.undefined.
Proof.
  intros Hty. unfold validator. rewrite Hty. by simpl.
Qed.

Lemma checkbox_rule_witness :
  (type terms_001 = "checkbox" ∧ required terms_001 = Some true)
  ∧ validator terms_001 = Zod.ZodOptional Zod.ZodBoolean
  ∧ (∀ b, Zod._parse (validator terms_001) (JS.boolean b) = Zod.OK (JS.boolean b))
  ∧ Zod._parse (validator terms_001) JS.undefined = Zod.OK JS.undefined.
Proof.
  split; [split; reflexivity|].
  apply (checkbox_rule terms_001). reflexivity.
Defined.

(* ===================================================================== *)
(** * Optional fields and the empty string *)
(* ===================================================================== *)

Lemma optional_empty_string_refused (field : FormField) :
  is_required field = false → type field ∈ ["email"; "tel"; "number"] →
  Zod.isValid (Zod._parse (validator field) (JS.str "")) = false
  ∧ Zod.isValid (Zod._parse (validator field) JS.undefined) = true.
Proof.
  intros Hreq Hty. unfold validator. rewrite Hreq.
  rewrite !elem_of_cons, elem_of_nil in Hty.
  destruct Hty as [->|[->|[->|[]]]]; simpl.
  - by vm_compute.
  - by vm_compute.
  - destruct (String.eqb (name field) "age"); by vm_compute.
Qed.

(** C10: the rule of a descriptor that is not required and has type
    [email], [tel] or [number] refuses the empty string, while accepting
    an absent value; for [number] the empty string is coerced to 0, which
    is below the minimum of 1.  So in a list with unique names, such a
    descriptor without a truthy stored value starts with the empty string
    as its live value and gets an error when the form is submitted as
    loaded. *)
Theorem optional_field_rejects_empty (fields : list FormField) (field : FormField) :
  NoDup (name <$> fields) → field ∈ fields →
  is_required field = false →
  type field ∈ ["email"; "tel"; "number"] →
  Zod.isValid (Zod._parse (validator field) (JS.str "")) = false
  ∧ Zod.isValid (Zod._parse (validator field) JS.undefined) = true
  ∧ (type field = "number" →
       JS.Number (JS.str "") = JS.of_Z 0
       ∧ JS.lt (JS.of_Z 0) (JS.of_Z 1) = true
       ∧ Zod.code <$> Zod.issues (Zod._parse (validator field) (JS.str ""))
         = [Zod.too_small])
  ∧ (JS.ToBoolean (value field) = false →
       values (mount fields) !! name field = Some (JS.str "")
       ∧ is_Some (errors (submit (mount fields)) !! name field)).
Proof.
  intros Hnd Hin Hreq Hty.
  destruct (optional_empty_string_refused field Hreq Hty) as [Hempty Habsent].
  split; [done|]. split; [done|]. split.
  { intros Hnum. unfold validator. rewrite Hreq, Hnum. simpl.
    destruct (String.eqb (name field) "age"); by vm_compute. }
  intros Hfalsy.
  assert (values (mount fields) !! name field = Some (JS.str "")) as Hlive.
  { change (values (mount fields)) with (defaultValues fields).
    rewrite defaultValues_lookup by done. unfold defaultValue, JS.or.
    rewrite Hfalsy. rewrite !elem_of_cons, elem_of_nil in Hty.
    by destruct Hty as [->|[->|[->|[]]]]. }
  split; [done|]. rewrite submit_errors.
  destruct (decide (name field = "contact")) as [Hc|Hc].
  - apply (resolver_error_of_invalid _ _ (name field) contactValidator).
    + rewrite Hc. apply schema_lookup_contact.
    + unfold JS.get. rewrite Hlive. by vm_compute.
  - apply (resolver_error_of_invalid _ _ (name field) (validator field)).
    + by apply schema_lookup.
    + unfold JS.get. by rewrite Hlive.
Qed.

Lemma optional_field_rejects_empty_witness :
  Zod.isValid (Zod._parse (validator newsletter) (JS.str "")) = false
  ∧ Zod.isValid (Zod._parse (validator newsletter) JS.undefined) = true
  ∧ (type newsletter = "number" →
       JS.Number (JS.str "") = JS.of_Z 0
       ∧ JS.lt (JS.of_Z 0) (JS.of_Z 1) = true
       ∧ Zod.code <$> Zod.issues (Zod._parse (validator newsletter) (JS.str ""))
         = [Zod.too_small])
  ∧ (JS.ToBoolean (value newsletter) = false →
       values (mount (initialFields ++ [newsletter])) !! name newsletter = Some (JS.str "")
       ∧ is_Some (errors (submit (mount (initialFields ++ [newsletter]))) !! name newsletter)).
Proof.
  apply (optional_field_rejects_empty (initialFields ++ [newsletter]) newsletter).
  - simpl. repeat constructor; set_solver.
  - unfold initialFields. set_solver.
  - reflexivity.
  - simpl. set_solver.
Defined.

Example optional_defaults_fail :
  errors (submit (mount [newsletter; optionalAge])) !! "newsletter"
    = Some "Invalid email format"
  ∧ errors (submit (mount [newsletter; optionalAge])) !! "age"
    = Some "Number must be greater than or equal to 1".
Proof. vm_compute. split; reflexivity. Qed.

(* ===================================================================== *)
(** * The matcher against what a pattern denotes *)
(* ===================================================================== *)

Lemma append_cons (c : ascii) (s t : string) : String c s +:+ t = String c (s +:+ t).
Proof. reflexivity. Qed.

Lemma append_empty_l (t : string) : "" +:+ t = t.
Proof. reflexivity. Qed.

Lemma append_empty_r (s : string) : s +:+ "" = s.
Proof. induction s as [|c s IH]; [done|]. by rewrite append_cons, IH. Qed.

Lemma append_assoc (s1 s2 s3 : string) : (s1 +:+ s2) +:+ s3 = s1 +:+ (s2 +:+ s3).
Proof. induction s1 as [|c s1 IH]; [done|]. by rewrite !append_cons, IH. Qed.

Lemma append_length (s1 s2 : string) :
  String.length (s1 +:+ s2) = (String.length s1 + String.length s2)%nat.
Proof. induction s1 as [|c s1 IH]; [done|]. rewrite append_cons. simpl. by rewrite IH. Qed.

Lemma append_chars (s1 s2 : string) : chars (s1 +:+ s2) = chars s1 ++ chars s2.
Proof.
  unfold chars. induction s1 as [|c s1 IH]; [done|]. rewrite append_cons. simpl.
  by rewrite IH.
Qed.

Lemma append_eq_empty (s1 s2 : string) : s1 +:+ s2 = "" → s1 = "" ∧ s2 = "".
Proof. destruct s1; [by rewrite append_empty_l|by rewrite append_cons]. Qed.

Lemma nullable_matches (r : RegExp.t) :
  RegExp.nullable r = true ↔ Language.matches r "".
Proof.
  induction r as [| |negated items|r1 IH1 r2 IH2|r1 IH1 r2 IH2|r IH|r1 IH1 r2 IH2|r IH];
    simpl.
  - split; [discriminate|done].
  - done.
  - split; [discriminate|]. by intros (c & Hc & _).
  - rewrite andb_true_iff, IH1, IH2. split.
    + intros [H1 H2]. by exists "", "".
    + intros (s1 & s2 & Hs & H1 & H2). symmetry in Hs.
      apply append_eq_empty in Hs as [-> ->]. done.
  - by rewrite orb_true_iff, IH1, IH2.
  - split; [intros _; constructor|done].
  - by rewrite andb_true_iff, IH1, IH2.
  - rewrite negb_true_iff, <- IH. by destruct (RegExp.nullable r).
Qed.

Lemma star_cons (P Q : string → Prop) (c : ascii) (s : string) :
  (∀ t, P (String c t) → Q t) →
  Language.star P (String c s) →
  ∃ s1 s2, s = s1 +:+ s2 ∧ Q s1 ∧ Language.star P s2.
Proof.
  intros HPQ Hstar. remember (String c s) as cs eqn:Hcs.
  induction Hstar as [|s1 s2 H1 H2 IH]; [discriminate|].
  destruct s1 as [|c1 s1].
  - by apply IH.
  - rewrite append_cons in Hcs. injection Hcs as -> <-. exists s1, s2. eauto.
Qed.

Lemma deriv_matches (r : RegExp.t) (c : ascii) (s : string) :
  Language.matches (RegExp.deriv c r) s ↔ Language.matches r (String c s).
Proof.
  revert s.
  induction r as [| |negated items|r1 IH1 r2 IH2|r1 IH1 r2 IH2|r IH|r1 IH1 r2 IH2|r IH];
    intros s; simpl.
  - done.
  - split; [done|discriminate].
  - destruct (RegExp.class_matches negated items c) eqn:Hc; simpl.
    + split; [intros ->; eauto|]. by intros (c' & [= -> ->] & _).
    + split; [done|]. intros (c' & [= -> ->] & Hc'). congruence.
  - assert ((∃ s1 s2, s = s1 +:+ s2 ∧ Language.matches (RegExp.deriv c r1) s1
                      ∧ Language.matches r2 s2)
            ↔ ∃ t1 s2, String c s = String c t1 +:+ s2 ∧ Language.matches r1 (String c t1)
                       ∧ Language.matches r2 s2) as Hleft.
    { split; intros (s1 & s2 & Hs & H1 & H2); exists s1, s2.
      - rewrite Hs. split; [done|]. by rewrite <- IH1.
      - rewrite append_cons in Hs. injection Hs as ->. split; [done|]. by rewrite IH1. }
    destruct (RegExp.nullable r1) eqn:Hnull; simpl.
    + rewrite Hleft, IH2. split.
      * intros [(t1 & s2 & Hs & H1 & H2)|H2]; [by eauto|].
        exists "", (String c s). split; [done|]. split; [|done].
        by apply nullable_matches.
      * intros (s1 & s2 & Hs & H1 & H2). destruct s1 as [|c1 s1].
        -- right. by rewrite Hs.
        -- left. rewrite append_cons in Hs. injection Hs as <- ->. by exists s1, s2.
    + rewrite Hleft. split.
      * intros (t1 & s2 & Hs & H1 & H2). eauto.
      * intros (s1 & s2 & Hs & H1 & H2). destruct s1 as [|c1 s1].
        -- apply nullable_matches in H1. congruence.
        -- rewrite append_cons in Hs. injection Hs as <- ->. by exists s1, s2.
  - by rewrite IH1, IH2.
  - split.
    + intros (s1 & s2 & -> & H1 & H2).
      apply (Language.star_app _ (String c s1) s2); [by apply IH|done].
    + intros Hstar.
      apply (star_cons _ (Language.matches (RegExp.deriv c r))) in Hstar; [done|].
      intros t. apply IH.
  - by rewrite IH1, IH2.
  - by rewrite IH.
Qed.

(** The matcher decides the language of the pattern. *)
Lemma test_matches (r : RegExp.t) (s : string) :
  RegExp.test r s = true ↔ Language.matches r s.
Proof.
  revert r. induction s as [|c s IH]; intros r; simpl.
  - apply nullable_matches.
  - by rewrite IH, deriv_matches.
Qed.

(** ** Bounds that hold for every match *)

Lemma minLength_sound (r : RegExp.t) (s : string) :
  Language.matches r s → (Language.minLength r ≤ String.length s)%nat.
Proof.
  revert s.
  induction r as [| |negated items|r1 IH1 r2 IH2|r1 IH1 r2 IH2|r IH|r1 IH1 r2 IH2|r IH];
    intros s; simpl; try lia.
  - by intros (c & -> & _).
  - intros (s1 & s2 & -> & H1 & H2). rewrite append_length.
    specialize (IH1 _ H1). specialize (IH2 _ H2). lia.
  - intros [H|H]; [specialize (IH1 _ H)|specialize (IH2 _ H)]; lia.
  - intros [H1 H2]. specialize (IH1 _ H1). specialize (IH2 _ H2). lia.
Qed.

Lemma maxLength_sound (r : RegExp.t) (s : string) (n : nat) :
  Language.maxLength r = Some n → Language.matches r s → (String.length s ≤ n)%nat.
Proof.
  revert s n.
  induction r as [| |negated items|r1 IH1 r2 IH2|r1 IH1 r2 IH2|r IH|r1 IH1 r2 IH2|r IH];
    intros s n; simpl; try done.
  - intros [= <-] ->. done.
  - intros [= <-] (c & -> & _). done.
  - destruct (Language.maxLength r1) as [a|], (Language.maxLength r2) as [b|]; try done.
    intros [= <-] (s1 & s2 & -> & H1 & H2). rewrite append_length.
    specialize (IH1 _ _ eq_refl H1). specialize (IH2 _ _ eq_refl H2). lia.
  - destruct (Language.maxLength r1) as [a|], (Language.maxLength r2) as [b|]; try done.
    intros [= <-] [H|H];
      [specialize (IH1 _ _ eq_refl H)|specialize (IH2 _ _ eq_refl H)]; lia.
  - destruct (Language.maxLength r1) as [a|], (Language.maxLength r2) as [b|]; try done;
      intros [= <-] [H1 H2].
    + specialize (IH1 _ _ eq_refl H1). specialize (IH2 _ _ eq_refl H2). lia.
    + by apply (IH1 _ _ eq_refl).
    + by apply (IH2 _ _ eq_refl).
Qed.

Lemma alphabet_sound (r : RegExp.t) (s : string) :
  Language.matches r s → Forall (λ c, Language.alphabet r c = true) (chars s).
Proof.
  revert s.
  induction r as [| |negated items|r1 IH1 r2 IH2|r1 IH1 r2 IH2|r IH|r1 IH1 r2 IH2|r IH];
    intros s; simpl; try done.
  - intros ->. constructor.
  - intros (c & -> & Hc). by repeat constructor.
  - intros (s1 & s2 & -> & H1 & H2). rewrite append_chars. apply Forall_app. split.
    + eapply Forall_impl; [by apply IH1|]. simpl. intros c ->. done.
    + eapply Forall_impl; [by apply IH2|]. simpl. intros c ->. by rewrite orb_true_r.
  - intros [H|H].
    + eapply Forall_impl; [by apply IH1|]. simpl. intros c ->. done.
    + eapply Forall_impl; [by apply IH2|]. simpl. intros c ->. by rewrite orb_true_r.
  - intros Hstar. induction Hstar as [|s1 s2 H1 H2 IHstar]; [constructor|].
    rewrite append_chars. apply Forall_app. split; [by apply IH|done].
  - intros [H1 H2]. specialize (IH1 _ H1). specialize (IH2 _ H2).
    rewrite Forall_forall in *. intros c Hc. by rewrite IH1, IH2.
  - intros _. by apply Forall_true.
Qed.

(* ===================================================================== *)
(** * What the patterns of the component accept *)
(* ===================================================================== *)

Lemma phoneRegex_alphabet (c : ascii) : Language.alphabet phoneRegex c = phoneCharacter c.
Proof. by destruct c as [[] [] [] [] [] [] [] []]. Qed.

Lemma phoneRegex_shape (s : string) :
  RegExp.test phoneRegex s = true →
  (10 ≤ String.length s ≤ 17)%nat ∧ Forall (λ c, phoneCharacter c = true) (chars s).
Proof.
  intros Hs. apply test_matches in Hs. split; [split|].
  - by apply (minLength_sound phoneRegex).
  - by apply (maxLength_sound phoneRegex s 17).
  - eapply Forall_impl; [by apply alphabet_sound|].
    intros c Hc. by rewrite <- phoneRegex_alphabet.
Qed.

Lemma star_class (negated : bool) (items : list RegExp.ClassItem) (s : string) :
  Language.star (Language.matches (RegExp.Class negated items)) s
  ↔ Forall (λ c, RegExp.class_matches negated items c = true) (chars s).
Proof.
  split.
  - intros Hstar. induction Hstar as [|s1 s2 (c & -> & Hc) _ IH]; [constructor|].
    rewrite append_chars. by constructor.
  - induction s as [|c s IH]; [constructor|]. unfold chars. simpl.
    intros [Hc Hs]%Forall_cons.
    apply (Language.star_app _ (String c "") s); [by exists c|by apply IH].
Qed.

Lemma plus_class (negated : bool) (items : list RegExp.ClassItem) (s : string) :
  Language.matches (RegExp.Plus (RegExp.Class negated items)) s
  ↔ s ≠ "" ∧ Forall (λ c, RegExp.class_matches negated items c = true) (chars s).
Proof.
  unfold RegExp.Plus. simpl. split.
  - intros (s1 & s2 & -> & (c & -> & Hc) & Hstar). split; [done|].
    rewrite append_chars. constructor; [done|]. by apply star_class.
  - intros [Hne Hall]. destruct s as [|c s]; [done|].
    unfold chars in Hall. simpl in Hall. apply Forall_cons in Hall as [Hc Hs].
    exists (String c ""), s. split; [done|]. split; [by exists c|]. by apply star_class.
Qed.

Lemma plain_class (t : string) :
  Language.matches (RegExp.Plus (RegExp.Class true [RegExp.Space; RegExp.Ch "@"])) t
  ↔ plain t.
Proof.
  rewrite plus_class. unfold plain. apply and_iff_compat_l.
  apply Forall_proper; [|done]. intros c. unfold RegExp.class_matches. simpl.
  destruct (JS.isWhiteSpace c); simpl; [by intuition|].
  destruct (Ascii.eqb_spec c "@"); simpl; by intuition.
Qed.

Lemma lit_matches (c : ascii) (s : string) :
  Language.matches (RegExp.Lit c) s ↔ s = String c "".
Proof.
  unfold RegExp.Lit, RegExp.class_matches. simpl. split.
  - intros (c' & -> & Hc). rewrite orb_false_r in Hc.
    by apply Ascii.eqb_eq in Hc as ->.
  - intros ->. exists c. by rewrite Ascii.eqb_refl.
Qed.

Lemma emailRegex_shape (s : string) : RegExp.test emailRegex s = true ↔ emailShaped s.
Proof.
  rewrite test_matches. unfold emailRegex, RegExp.Seq, emailShaped.
  cbn [foldr Language.matches]. split.
  - intros (local & s1 & -> & Hlocal & at_ & s2 & -> & Hat & domain & s3 & -> & Hdomain
            & dot & s4 & -> & Hdot & tld & s5 & -> & Htld & ->).
    apply lit_matches in Hat as ->. apply lit_matches in Hdot as ->.
    rewrite append_empty_r. exists local, domain, tld.
    by rewrite <- !plain_class.
  - intros (local & domain & tld & -> & Hlocal & Hdomain & Htld).
    exists local, ("@" +:+ domain +:+ "." +:+ tld). split; [done|].
    split; [by apply plain_class|].
    exists "@", (domain +:+ "." +:+ tld). split; [done|].
    split; [by apply lit_matches|].
    exists domain, ("." +:+ tld). split; [done|]. split; [by apply plain_class|].
    exists ".", tld. split; [done|]. split; [by apply lit_matches|].
    exists tld, "". rewrite append_empty_r. split; [done|]. split; [by apply plain_class|done].
Qed.

(** X1: the rule of a [tel] descriptor accepts a string exactly when the
    phone pattern matches it, hands it on unchanged, and otherwise reports
    "Invalid phone number format" (once); an accepted string has between
    10 and 17 characters, all of them digits, [+ ( ) - .] or white space;
    an absent value is "Required" for a required descriptor and accepted
    for an optional one. *)
Theorem tel_rule (field : FormField) (s : string) :
  type field = "tel" →
  let r := Zod._parse (validator field) (JS.str s) in
  Zod.isValid r = RegExp.test phoneRegex s
  ∧ Zod.output r = Some (JS.str s)
  ∧ Zod.message <$> Zod.issues r
    = (if RegExp.test phoneRegex s then [] else ["Invalid phone number format"])
  ∧ (Zod.isValid r = true →
       (10 ≤ String.length s ≤ 17)%nat ∧ Forall (λ c, phoneCharacter c = true) (chars s))
  ∧ Zod._parse (validator field) JS.undefined
    = (if is_required field
       then Zod.INVALID {| Zod.code := Zod.invalid_type; Zod.message := "Required" |}
       else Zod.OK JS.undefined).
Proof.
  intros Hty r. subst r. unfold validator. rewrite Hty. simpl.
  assert (∀ b, Zod.isValid
            {| Zod.output := Some (JS.str s);
               Zod.issues := (if negb b
                              then [Zod.makeIssue Zod.invalid_string
                                      (Some "Invalid phone number format") None "Invalid"]
                              else []) ++ [] |} = b) as Hvalid by by intros [].
  destruct (is_required field); simpl; rewrite Hvalid;
    (split; [done|]); (split; [done|]);
    (split; [by destruct (RegExp.test phoneRegex s)|]);
    (split; [apply phoneRegex_shape|done]).
Qed.

Lemma tel_rule_witness :
  let r := Zod._parse (validator phone) (JS.str "(555) 123-4567") in
  Zod.isValid r = RegExp.test phoneRegex "(555) 123-4567"
  ∧ Zod.output r = Some (JS.str "(555) 123-4567")
  ∧ Zod.message <$> Zod.issues r
    = (if RegExp.test phoneRegex "(555) 123-4567" then []
       else ["Invalid phone number format"])
  ∧ (Zod.isValid r = true →
       (10 ≤ String.length "(555) 123-4567" ≤ 17)%nat
       ∧ Forall (λ c, phoneCharacter c = true) (chars "(555) 123-4567"))
  ∧ Zod._parse (validator phone) JS.undefined
    = (if is_required phone
       then Zod.INVALID {| Zod.code := Zod.invalid_type; Zod.message := "Required" |}
       else Zod.OK JS.undefined).
Proof.
  apply (tel_rule phone "(555) 123-4567"). reflexivity.
Defined.

(** X2: the contact rule accepts a string exactly when it has the form
    [local@domain.tld], with each of the three parts non-empty and free of
    white space and of [@], or when the phone pattern matches it; no
    accepted string has fewer than 5 characters. *)
Theorem contact_accepts (s : string) :
  (Zod.isValid (Zod._parse contactValidator (JS.str s)) = true
   ↔ emailShaped s ∨ RegExp.test phoneRegex s = true)
  ∧ Zod.isValid (Zod._parse contactValidator (JS.str s)) && (String.length s <? 5)%nat
    = false.
Proof.
  assert (Zod.isValid (Zod._parse contactValidator (JS.str s))
          = RegExp.test emailRegex s || RegExp.test phoneRegex s) as ->.
  { simpl. by destruct (_ || _). }
  split.
  - by rewrite orb_true_iff, emailRegex_shape.
  - destruct (_ || _) eqn:Hok; [|done]. simpl. apply Nat.ltb_ge.
    apply orb_true_iff in Hok as [He|Hp].
    + apply test_matches in He. by apply (minLength_sound emailRegex).
    + apply phoneRegex_shape in Hp. lia.
Qed.

(* ===================================================================== *)
(** * The default strategy *)
(* ===================================================================== *)

Lemma trimStart_all (s : string) : allWhiteSpace s = true → JS.trimStart s = "".
Proof.
  induction s as [|c s IH]; simpl; [done|].
  intros [Hc Hs]%andb_true_iff. rewrite Hc. by apply IH.
Qed.

Lemma trimStart_some (s : string) :
  allWhiteSpace s = false →
  ∃ c t, JS.trimStart s = String c t ∧ JS.isWhiteSpace c = false.
Proof.
  induction s as [|c s IH]; simpl; [done|].
  destruct (JS.isWhiteSpace c) eqn:Hc; simpl; [done|]. eauto.
Qed.

Lemma trimEnd_some (c : ascii) (t : string) :
  JS.isWhiteSpace c = false → JS.trimEnd (String c t) ≠ "".
Proof. intros Hc. simpl. rewrite Hc. by destruct (JS.trimEnd t). Qed.

(** [trim] leaves nothing exactly of the strings made of white space. *)
Lemma trim_empty (s : string) : JS.trim s = "" ↔ allWhiteSpace s = true.
Proof.
  unfold JS.trim. destruct (allWhiteSpace s) eqn:Hs.
  - by rewrite trimStart_all.
  - destruct (trimStart_some s Hs) as (c & t & -> & Hc).
    split; [|done]. intros Hempty. by destruct (trimEnd_some c t Hc).
Qed.

(** X3: the rule of a descriptor whose type is none of [email], [number],
    [tel], [checkbox].  Required: a string is trimmed first; it is refused
    with "<label or name> is required" exactly when it consists of white
    space only (the empty string included), and otherwise accepted and
    handed on trimmed; an absent value is "Required".  Not required: any
    string is accepted and handed on as it is, untrimmed, and so is an
    absent value. *)
Theorem generic_string_rule (field : FormField) (s : string) :
  type field ∉ ["email"; "number"; "tel"; "checkbox"] →
  Zod._parse (validator field) (JS.str s)
  = (if is_required field then
       if allWhiteSpace s
       then {| Zod.output := Some (JS.str "");
               Zod.issues := [{| Zod.code := Zod.too_small;
                                 Zod.message := label_or_name field +:+ " is required" |}] |}
       else Zod.OK (JS.str (JS.trim s))
     else Zod.OK (JS.str s))
  ∧ Zod._parse (validator field) JS.undefined
    = (if is_required field
       then Zod.INVALID {| Zod.code := Zod.invalid_type; Zod.message := "Required" |}
       else Zod.OK JS.undefined).
Proof.
  intros Hty. rewrite validator_default by done. unfold genericStringRule.
  destruct (is_required field); [|done]. split; [|done]. simpl.
  destruct (allWhiteSpace s) eqn:Hs.
  - apply trim_empty in Hs. by rewrite Hs.
  - destruct (JS.trim s) as [|c t] eqn:Htrim; [|done].
    apply trim_empty in Htrim. congruence.
Qed.

Lemma generic_string_rule_witness :
  Zod._parse (validator Username) (JS.str "   ")
  = (if is_required Username then
       if allWhiteSpace "   "
       then {| Zod.output := Some (JS.str "");
               Zod.issues := [{| Zod.code := Zod.too_small;
                                 Zod.message := label_or_name Username +:+ " is required" |}] |}
       else Zod.OK (JS.str (JS.trim "   "))
     else Zod.OK (JS.str "   "))
  ∧ Zod._parse (validator Username) JS.undefined
    = (if is_required Username
       then Zod.INVALID {| Zod.code := Zod.invalid_type; Zod.message := "Required" |}
       else Zod.OK JS.undefined).
Proof.
  apply (generic_string_rule Username "   "). simpl. set_solver.
Defined.

(* ===================================================================== *)
(** * Descriptors that share a name *)
(* ===================================================================== *)

Lemma assign_lookup_last {V : Type} (rhs : FormField → V) (fields : list FormField)
    (m : gmap string V) (key : string) :
  foldl (λ acc field, <[name field := rhs field]> acc) m fields !! key
  = match lastNamed key fields with
    | Some field => Some (rhs field)
    | None => m !! key
    end.
Proof.
  revert m. induction fields as [|f fields IH]; intros m; [done|].
  simpl. rewrite IH. unfold lastNamed. rewrite filter_cons.
  destruct (decide (name f = key)) as [Heq|Hne].
  - rewrite last_cons. destruct (last (filter _ fields)); [done|].
    by rewrite <- Heq, lookup_insert_eq.
  - destruct (last (filter _ fields)); [done|]. by rewrite lookup_insert_ne.
Qed.

(** X4: when several descriptors share a name, the last of them decides:
    for every list and every key, the derived default under the key is
    that of the last descriptor of that name, and so is the rule, unless
    the key is [contact], whose rule is always the synthetic one.  A key
    no descriptor has gets no default, and no rule unless it is
    [contact]. *)
Theorem last_descriptor_decides (fields : list FormField) (key : string) :
  defaultValues fields !! key = defaultValue <$> lastNamed key fields
  ∧ createValidationSchema fields !! key
    = (if decide (key = "contact") then Some contactValidator
       else validator <$> lastNamed key fields).
Proof.
  split.
  - unfold defaultValues. rewrite assign_lookup_last.
    by destruct (lastNamed key fields).
  - unfold createValidationSchema. destruct (decide (key = "contact")) as [->|Hne].
    + apply lookup_insert_eq.
    + rewrite lookup_insert_ne by done. rewrite assign_lookup_last.
      by destruct (lastNamed key fields).
Qed.

Example duplicate_names :
  defaultValues [Username; with_value Username (JS.str "second")] !! "Username"
  = Some (JS.str "second").
Proof. reflexivity. Qed.

Lemma default_entry_shape (fields : list FormField) (key : string) (v : JS.value) :
  defaultValues fields !! key = Some v →
  (∃ b, v = JS.boolean b) ∨ v = JS.str "" ∨ JS.ToBoolean v = true.
Proof.
  unfold defaultValues. rewrite assign_lookup_last.
  destruct (lastNamed key fields) as [field|]; [|done]. intros [= <-].
  unfold defaultValue, JS.or. destruct (String.eqb _ _); [by eauto|].
  destruct (JS.ToBoolean (value field)) eqn:Hv; by eauto.
Qed.

(** X5: a derived default is never [undefined] nor a falsy number: every
    entry of the derived map is a boolean, the empty string, or a truthy
    value. *)
Theorem defaultValues_shape (fields : list FormField) (key : string) (v : JS.value) :
  defaultValues fields !! key = Some v →
  (∃ b, v = JS.boolean b) ∨ v = JS.str "" ∨ JS.ToBoolean v = true.
Proof. apply default_entry_shape. Qed.

Lemma defaultValues_shape_witness :
  (∃ b, JS.str "" = JS.boolean b) ∨ JS.str "" = JS.str "" ∨ JS.ToBoolean (JS.str "") = true.
Proof.
  apply (defaultValues_shape [quantity] "quantity" (JS.str "")). reflexivity.
Defined.

(* ===================================================================== *)
(** * What a submission reports and sends *)
(* ===================================================================== *)




Lemma submit_blocked_record (s : Form) :
  (ReactHookForm.zodResolver (createValidationSchema (formFields s)) (values s)).2 ≠ ∅ →
  submit s
  = {| formFields := formFields s; values := values s;
       errors := (ReactHookForm.zodResolver
                    (createValidationSchema (formFields s)) (values s)).2;
       interactionCount := interactionCount s; posted := posted s |}.
Proof.
  unfold submit, ReactHookForm.handleSubmit.
  destruct (ReactHookForm.zodResolver _ _) as [data errs]. simpl. intros Hsome.
  by rewrite decide_False.
Qed.

(** X7: submitting again a form that was refused changes nothing.  When
    a submission reports an error, nothing is sent, and a second click on
    the submit button leaves the session exactly as the first left it:
    the same errors, the same values and counters, and still nothing
    sent. *)
Theorem blocked_submit_is_idempotent (s : Form) :
  errors (submit s) ≠ ∅ →
  posted (submit s) = posted s ∧ submit (submit s) = submit s.
Proof.
  rewrite submit_errors. intros Hsome. split; [by apply submit_blocked|].
  rewrite (submit_blocked_record (submit s));
    rewrite ?submit_formFields, ?submit_values; [|done].
  by rewrite (submit_blocked_record s Hsome).
Qed.

Lemma blocked_submit_is_idempotent_witness :
  posted (submit (mount initialFields)) = posted (mount initialFields)
  ∧ submit (submit (mount initialFields)) = submit (mount initialFields).
Proof.
  apply (blocked_submit_is_idempotent (mount initialFields)).
  vm_compute. discriminate.
Defined.

(** ** What saving leaves alone *)

Lemma validator_with_value (field : FormField) (v : JS.value) :
  validator (with_value field v) = validator field.
Proof. done. Qed.

Lemma foldl_assign_fmap {V : Type} (rhs : FormField → V) (g : FormField → FormField)
    (fields : list FormField) (m : gmap string V) :
  (∀ field, name (g field) = name field) → (∀ field, rhs (g field) = rhs field) →
  foldl (λ acc field, <[name field := rhs field]> acc) m (g <$> fields)
  = foldl (λ acc field, <[name field := rhs field]> acc) m fields.
Proof.
  intros Hname Hrhs. revert m. induction fields as [|f fields IH]; intros m; [done|].
  simpl. by rewrite Hname, Hrhs, IH.
Qed.

Lemma onSubmit_frame_values (fields : list FormField) (data : gmap string JS.value) :
  withoutValue <$> onSubmit fields data = withoutValue <$> fields.
Proof. unfold onSubmit. rewrite <- list_fmap_compose. by apply list_fmap_ext. Qed.

Lemma onSubmit_frame_schema (fields : list FormField) (data : gmap string JS.value) :
  createValidationSchema (onSubmit fields data) = createValidationSchema fields.
Proof.
  unfold onSubmit, createValidationSchema. f_equal.
  by apply (foldl_assign_fmap validator).
Qed.

(** X8: saving touches nothing but the values.  Whatever the data, the
    list [onSubmit] builds is the fetched list with other values: without
    the values the two are the same list, and therefore the ruleset built
    from the saved list is the ruleset built from the fetched one. *)
Theorem onSubmit_frame (fields : list FormField) (data : gmap string JS.value) :
  withoutValue <$> onSubmit fields data = withoutValue <$> fields
  ∧ createValidationSchema (onSubmit fields data) = createValidationSchema fields.
Proof. split; [apply onSubmit_frame_values|apply onSubmit_frame_schema]. Qed.

(* ===================================================================== *)
(** * Sessions: what sequences of events lead to *)
(* ===================================================================== *)

Lemma run_snoc (s : Form) (events : list Event) (e : Event) :
  run s (events ++ [e]) = step (run s events) e.
Proof. unfold run. by rewrite foldl_app. Qed.

Lemma step_formFields (s : Form) (e : Event) : formFields (step s e) = formFields s.
Proof. destruct e; simpl; try done. apply submit_formFields. Qed.

Lemma run_formFields (s : Form) (events : list Event) :
  formFields (run s events) = formFields s.
Proof.
  induction events as [|e events IH] using rev_ind; [done|].
  by rewrite run_snoc, step_formFields.
Qed.

(** X11: the interaction counter of a field is the number of edits of its
    control since the last reset (or since loading); a field that was not
    edited has no counter, and submitting does not count. *)
Theorem interaction_counts (fields : list FormField) (events : list Event)
    (fieldName : string) :
  interactionCount (run (mount fields) events) !! fieldName
  = match editsSinceReset fieldName events with
    | O => None
    | n => Some n
    end.
Proof.
  induction events as [|e events IH] using rev_ind; [done|].
  rewrite run_snoc. unfold editsSinceReset in *. rewrite foldl_app. simpl.
  set (n := foldl _ 0%nat events) in *.
  assert (default 0%nat (interactionCount (run (mount fields) events) !! fieldName) = n)
    as Hn by (rewrite IH; by destruct n).
  destruct e as [k text|k checked| |]; simpl.
  - destruct (String.eqb_spec k fieldName) as [->|Hne].
    + rewrite lookup_insert_eq, Hn. f_equal. lia.
    + by rewrite lookup_insert_ne.
  - destruct (String.eqb_spec k fieldName) as [->|Hne].
    + rewrite lookup_insert_eq, Hn. f_equal. lia.
    + by rewrite lookup_insert_ne.
  - rewrite <- IH. unfold submit. by destruct (ReactHookForm.handleSubmit _ _ _).
  - done.
Qed.

Example interaction_counts_sample :
  interactionCount
    (run (mount initialFields)
       [TextInput "Username" "a"; Reset; TextInput "Username" "ab"; Submit;
        TextInput "age" "2"; TextInput "Username" "abc"])
  = {[ "Username" := 2%nat; "age" := 1%nat ]}.
Proof. vm_compute. reflexivity. Qed.

Lemma absent_contact_blocks (s : Form) :
  JS.get (values s) "contact" = JS.undefined → posted (submit s) = posted s.
Proof.
  intros Habsent. apply submit_blocked. intros Hnone.
  destruct (resolver_error_of_invalid (createValidationSchema (formFields s)) (values s)
              "contact" contactValidator) as [m Hm].
  - apply schema_lookup_contact.
  - by rewrite Habsent.
  - by rewrite Hnone, lookup_empty in Hm.
Qed.

Lemma defaultValues_no_contact (fields : list FormField) :
  "contact" ∉ name <$> fields → JS.get (defaultValues fields) "contact" = JS.undefined.
Proof.
  intros Hfresh. unfold JS.get, defaultValues. by rewrite assign_lookup_other.
Qed.

(** X12: nothing can be saved before the contact control has been used.
    When the fetched descriptors have plain names, none of them [contact],
    a session in which only controls with plain names were edited and the
    contact control never was, reads [undefined] for [contact] and has
    sent nothing, however often the form was submitted or reset; every
    submission in it is refused, so the fetched list stays the one that
    was loaded. *)
Theorem nothing_sent_without_contact (fields : list FormField) (events : list Event) :
  Forall (λ field, plainName (name field) = true) fields →
  "contact" ∉ name <$> fields →
  Forall (λ e, plainEvent e = true) events →
  Forall (λ e, edits "contact" e = false) events →
  JS.get (values (run (mount fields) events)) "contact" = JS.undefined
  ∧ posted (run (mount fields) events) = [].
Proof.
  intros _ Hfresh _. induction events as [|e events IH] using rev_ind; intros Hevents.
  - split; [by apply defaultValues_no_contact|done].
  - apply Forall_app in Hevents as [Hevents He].
    apply (proj1 (Forall_singleton _ _)) in He.
    destruct (IH Hevents) as [Hvalue Hposted]. rewrite run_snoc.
    destruct e as [k text|k checked| |]; simpl in *.
    + apply String.eqb_neq in He. unfold JS.get in *. by rewrite lookup_insert_ne.
    + apply String.eqb_neq in He. unfold JS.get in *. by rewrite lookup_insert_ne.
    + rewrite submit_values. split; [done|].
      by rewrite absent_contact_blocks.
    + rewrite run_formFields. split; [by apply defaultValues_no_contact|done].
Qed.

Lemma nothing_sent_without_contact_witness :
  JS.get (values (run (mount initialFields)
                    [TextInput "age" "19"; TextInput "Username" "shadcn";
                     CheckboxInput "terms_001" true; Submit; Reset; Submit]))
         "contact" = JS.undefined
  ∧ posted (run (mount initialFields)
              [TextInput "age" "19"; TextInput "Username" "shadcn";
               CheckboxInput "terms_001" true; Submit; Reset; Submit])
    = [].
Proof.
  apply (nothing_sent_without_contact initialFields
           [TextInput "age" "19"; TextInput "Username" "shadcn";
            CheckboxInput "terms_001" true; Submit; Reset; Submit]).
  - repeat constructor.
  - simpl. set_solver.
  - repeat constructor.
  - repeat constructor.
Defined.

(** X13: an edit is local.  For a control with a plain name, an edit
    makes the live value read under that name the new value and leaves
    what is read under every other name as it was; the error under that
    name becomes what the field's rule says of the new value (none if it
    passes, or if the name has no rule), while the errors under all other
    names stay as they were, even if those fields are invalid; and nothing
    is sent. *)
Theorem change_is_local (s : Form) (fieldName : string) (v : JS.value) :
  plainName fieldName = true →
  (∀ key, JS.get (values (change fieldName v s)) key
          = if String.eqb key fieldName then v else JS.get (values s) key)
  ∧ errors (change fieldName v s) !! fieldName
    = (createValidationSchema (formFields s) !! fieldName
       ≫= λ rule, Zod.message <$> head (Zod.issues (Zod._parse rule v)))
  ∧ delete fieldName (errors (change fieldName v s)) = delete fieldName (errors s)
  ∧ posted (change fieldName v s) = posted s
  ∧ formFields (change fieldName v s) = formFields s.
Proof.
  intros _. unfold change. simpl. split.
  { intros key. unfold JS.get. destruct (String.eqb_spec key fieldName) as [->|Hne].
    - by rewrite lookup_insert_eq.
    - by rewrite lookup_insert_ne. }
  pose proof (resolver_error_at (createValidationSchema (formFields s))
                (<[fieldName := v]> (values s)) fieldName) as Hat.
  unfold JS.get in Hat. rewrite lookup_insert_eq in Hat. simpl in Hat.
  rewrite <- Hat.
  destruct (_ !! fieldName) as [m|] eqn:Hfound.
  - rewrite lookup_insert_eq. split; [done|]. by rewrite delete_insert_eq.
  - rewrite lookup_delete_eq. split; [done|]. by rewrite delete_delete_eq.
Qed.

Lemma change_is_local_witness :
  (∀ key, JS.get (values (change "age" (JS.str "121") filledIn)) key
          = if String.eqb key "age" then JS.str "121" else JS.get (values filledIn) key)
  ∧ errors (change "age" (JS.str "121") filledIn) !! "age"
    = (createValidationSchema (formFields filledIn) !! "age"
       ≫= λ rule, Zod.message <$> head (Zod.issues (Zod._parse rule (JS.str "121"))))
  ∧ delete "age" (errors (change "age" (JS.str "121") filledIn))
    = delete "age" (errors filledIn)
  ∧ posted (change "age" (JS.str "121") filledIn) = posted filledIn
  ∧ formFields (change "age" (JS.str "121") filledIn) = formFields filledIn.
Proof.
  apply (change_is_local filledIn "age" (JS.str "121")). reflexivity.
Defined.

Lemma showPhoneEmail_depends_on_age (values : gmap string JS.value) (key : string)
    (v : JS.value) :
  key ≠ "age" → showPhoneEmail (<[key := v]> values) = showPhoneEmail values.
Proof.
  intros Hne. unfold showPhoneEmail, JS.get. by rewrite lookup_insert_ne.
Qed.

(** X14: only the age decides which controls there are.  An edit of a
    control with a plain name other than [age] leaves the list of controls
    the form renders as it was (what the controls draw apart): the contact
    control neither appears nor disappears through it. *)
Theorem render_depends_on_age (s : Form) (fieldName : string) (v : JS.value) :
  plainName fieldName = true →
  fieldName ≠ "age" →
  render (formFields (change fieldName v s)) (values (change fieldName v s))
  = render (formFields s) (values s).
Proof.
  intros _ Hne. unfold change, render. simpl.
  by rewrite showPhoneEmail_depends_on_age.
Qed.

Lemma render_depends_on_age_witness :
  render (formFields (change "Username" (JS.str "x") (mount initialFields)))
         (values (change "Username" (JS.str "x") (mount initialFields)))
  = render (formFields (mount initialFields)) (values (mount initialFields)).
Proof.
  apply (render_depends_on_age (mount initialFields) "Username" (JS.str "x")).
  - reflexivity.
  - discriminate.
Defined.

(** X18: the message shown while typing is the one submitting would
    show.  Right after an edit, the error under the edited name is the
    error a submission would report under that name. *)
Theorem inline_error_agrees_with_submit (s : Form) (fieldName : string) (v : JS.value) :
  errors (submit (change fieldName v s)) !! fieldName
  = errors (change fieldName v s) !! fieldName.
Proof.
  rewrite submit_errors. unfold change. simpl.
  destruct (_ !! fieldName) as [m|] eqn:Hfound.
  - by rewrite lookup_insert_eq.
  - by rewrite lookup_delete_eq.
Qed.

Lemma defaults_age (fields : list FormField) : ageNotFalsyNumber (defaultValues fields).
Proof.
  intros n Hage. unfold JS.get in Hage.
  destruct (defaultValues fields !! "age") as [v|] eqn:Hv; simpl in Hage; [|done].
  subst v. by destruct (default_entry_shape _ _ _ Hv) as [[b Hb]|[Hs|Ht]].
Qed.

Lemma step_age (s : Form) (e : Event) :
  ageNotFalsyNumber (values s) → ageNotFalsyNumber (values (step s e)).
Proof.
  intros Hage. destruct e as [k text|k checked| |]; simpl.
  - intros n. unfold JS.get. destruct (decide (k = "age")) as [->|Hne].
    + by rewrite lookup_insert_eq.
    + rewrite lookup_insert_ne by done. apply Hage.
  - intros n. unfold JS.get. destruct (decide (k = "age")) as [->|Hne].
    + by rewrite lookup_insert_eq.
    + rewrite lookup_insert_ne by done. apply Hage.
  - by rewrite submit_values.
  - apply defaults_age.
Qed.

Lemma no_text (fields : list FormField) (values : gmap string JS.value) (v : JS.value) :
  ageNotFalsyNumber values → Text v ∉ render fields values.
Proof.
  intros Hage. unfold render. rewrite elem_of_app. intros [Hin|Hin].
  - apply list_elem_of_In, in_flat_map in Hin as (f & _ & Hf).
    destruct (negb _); simpl in Hf; [by destruct Hf|done].
  - unfold showPhoneEmail, JS.and in Hin.
    destruct (JS.ToBoolean (JS.get _ "age")) eqn:Htruthy.
    + simpl in Hin. destruct (JS.gt _ _); set_solver.
    + rewrite Htruthy in Hin.
      destruct (JS.get values "age") as [| |n|] eqn:Hget; simpl in Hin; try set_solver.
      rewrite (Hage n Hget) in Htruthy. discriminate.
Qed.

(** X15: the condition [age && Number(age) > 18] is never written out as
    text ("0" or "NaN") in place of the contact control.  The live value
    of [age] is never a falsy number: the defaults derived from any
    fetched list have none there; an edit of a control with a plain name,
    a click on submit and a reset each keep it so; and whenever it is so,
    the form renders controls only. *)
Theorem condition_never_text :
  (∀ fields, ageNotFalsyNumber (defaultValues fields))
  ∧ (∀ s e, plainEvent e = true → ageNotFalsyNumber (values s) →
            ageNotFalsyNumber (values (step s e)))
  ∧ (∀ fields values v, ageNotFalsyNumber values → Text v ∉ render fields values).
Proof.
  split; [apply defaults_age|]. split; [|apply no_text].
  intros s e _. apply step_age.
Qed.

(* ===================================================================== *)
(** * The values that are saved *)
(* ===================================================================== *)

Lemma trimEnd_head (c : ascii) (t : string) :
  JS.isWhiteSpace c = false → ∃ t', JS.trimEnd (String c t) = String c t'.
Proof. intros Hc. simpl. rewrite Hc. destruct (JS.trimEnd t); eauto. Qed.

Lemma trim_not_blank (s : string) : JS.trim s ≠ "" → allWhiteSpace (JS.trim s) = false.
Proof.
  intros Hne. destruct (allWhiteSpace s) eqn:Hs.
  - by apply trim_empty in Hs.
  - unfold JS.trim. destruct (trimStart_some s Hs) as (c & t & -> & Hc).
    destruct (trimEnd_head c t Hc) as [t' ->]. simpl. by rewrite Hc.
Qed.

Lemma ok_inv (r : Zod.ParseReturn) (out : JS.value) :
  r = Zod.OK out → Zod.output r = Some out ∧ Zod.issues r = [].
Proof. by intros ->. Qed.

Lemma email_check_ok (msg : option string) (input out : JS.value) :
  Zod._parse (Zod.ZodString [Zod.check_email msg]) input = Zod.OK out →
  ∃ s, out = JS.str s ∧ RegExp.test Zod.emailRegex s = true.
Proof.
  intros [Hout Hiss]%ok_inv.
  destruct input as [| | |s]; simpl in Hout, Hiss; try discriminate.
  exists s. split; [congruence|]. by destruct (RegExp.test Zod.emailRegex s).
Qed.

Lemma regex_check_ok (regex : RegExp.t) (msg : option string) (input out : JS.value) :
  Zod._parse (Zod.ZodString [Zod.check_regex regex msg]) input = Zod.OK out →
  ∃ s, out = JS.str s ∧ RegExp.test regex s = true.
Proof.
  intros [Hout Hiss]%ok_inv.
  destruct input as [| | |s]; simpl in Hout, Hiss; try discriminate.
  exists s. split; [congruence|]. by destruct (RegExp.test regex s).
Qed.

Lemma optional_ok (rule : Zod.ZodType) (input out : JS.value) :
  Zod._parse (Zod.ZodOptional rule) input = Zod.OK out →
  out = JS.undefined ∨ Zod._parse rule input = Zod.OK out.
Proof.
  destruct input; simpl; auto. intros [= <-]. by left.
Qed.

(** What a rule lets through, for a descriptor not named [contact]. *)
Lemma validator_ok (field : FormField) (input out : JS.value) :
  String.eqb (name field) "contact" = false →
  Zod._parse (validator field) input = Zod.OK out →
  wellTyped (with_value field out) = true.
Proof.
  intros Hname Hok. unfold wellTyped. simpl. rewrite Hname.
  change (upperBound (with_value field out)) with (upperBound field).
  change (is_required (with_value field out)) with (is_required field).
  destruct (String.eqb_spec (type field) "email") as [Hty|Hemail].
  { unfold validator in Hok. rewrite Hty in *. simpl in *.
    destruct (is_required field); simpl.
    - by apply email_check_ok in Hok as (s & -> & Hs).
    - apply optional_ok in Hok as [->|Hok]; [done|].
      by apply email_check_ok in Hok as (s & -> & Hs). }
  destruct (String.eqb_spec (type field) "number") as [Hty|Hnumber].
  { destruct (number_validator field Hty) as (errorMap & m1 & m2 & Hrule & _).
    simpl in Hrule. rewrite Hrule in Hok. rewrite Hty. simpl.
    assert (∀ input, Zod._parse (boundedNumber errorMap m1 m2 1 (upperBound field)) input
                     = Zod.OK out →
                     ∃ n, out = JS.num n ∧ inRange 1 (upperBound field) n = true) as Hnum.
    { intros input' Hok'.
      pose proof (coerced_number_valid errorMap m1 m2 1 (upperBound field)
                    of_Z_1_number (upperBound_number field) input') as Hvalid.
      rewrite Hok' in Hvalid. simpl in Hvalid. symmetry in Hvalid.
      exists (JS.Number input'). split; [|done].
      assert (JS.isNaN (JS.Number input') = false) as Hnan.
      { destruct (JS.isNaN _) eqn:E; [|done]. by rewrite inRange_NaN in Hvalid. }
      pose proof (coerced_number_output errorMap m1 m2 1 (upperBound field) input' Hnan)
        as Hout.
      rewrite Hok' in Hout. simpl in Hout. congruence. }
    destruct (is_required field); simpl.
    - destruct (Hnum _ Hok) as (n & -> & Hn). done.
    - apply optional_ok in Hok as [->|Hok]; [done|].
      destruct (Hnum _ Hok) as (n & -> & Hn). done. }
  destruct (String.eqb_spec (type field) "tel") as [Hty|Htel].
  { unfold validator in Hok. rewrite Hty in *. simpl in *.
    destruct (is_required field); simpl.
    - by apply regex_check_ok in Hok as (s & -> & Hs).
    - apply optional_ok in Hok as [->|Hok]; [done|].
      by apply regex_check_ok in Hok as (s & -> & Hs). }
  destruct (String.eqb_spec (type field) "checkbox") as [Hty|Hcheckbox].
  { unfold validator in Hok. rewrite Hty in *. simpl in *.
    destruct input; try discriminate; by injection Hok as <-. }
  rewrite validator_default in Hok by set_solver. unfold genericStringRule in Hok.
  destruct (is_required field); simpl.
  - apply ok_inv in Hok as [Hout Hiss].
    destruct input as [| | |s]; simpl in Hout, Hiss; try discriminate.
    injection Hout as <-. destruct (JS.trim s) as [|c t] eqn:Htrim; [done|].
    rewrite <- Htrim. rewrite trim_not_blank; [done|by rewrite Htrim].
  - apply optional_ok in Hok as [->|Hok]; [done|].
    destruct input; simpl in Hok; try discriminate. by injection Hok as <-.
Qed.

Lemma contact_ok (field : FormField) (input out : JS.value) :
  String.eqb (name field) "contact" = true →
  Zod._parse contactValidator input = Zod.OK out →
  wellTyped (with_value field out) = true.
Proof.
  intros Hname Hok. unfold wellTyped. simpl. rewrite Hname.
  apply ok_inv in Hok as [Hout Hiss].
  destruct input as [| | |s]; simpl in Hout, Hiss; try discriminate.
  injection Hout as <-. simpl. by destruct (_ || _).
Qed.

(** X16: what gets saved fits the rules.  When the names are unique and a
    submission passes, every descriptor of the list that is sent carries a
    value its own rule lets through: a boolean or nothing for a checkbox;
    a number within the bounds for a number field (or nothing when it is
    not required), never the text that was typed; a string matching the
    pattern for an email or tel field; a string that is not blank for
    another required field; and for a descriptor named [contact], a
    string the contact patterns match. *)
Theorem saved_values_fit_rules (s : Form) :
  NoDup (name <$> formFields s) →
  errors (submit s) = ∅ →
  ∃ body, posted (submit s) = posted s ++ [body]
          ∧ Forall (λ field, wellTyped field = true) body.
Proof.
  intros Hnd Hnone. rewrite submit_errors in Hnone.
  eexists. split; [by apply submit_sent|].
  unfold onSubmit. apply Forall_fmap, Forall_forall. intros field Hin. simpl.
  destruct (String.eqb (name field) "contact") eqn:Hname.
  - apply (contact_ok field (JS.get (values s) (name field))); [done|].
    apply resolver_values; [done|].
    apply String.eqb_eq in Hname. rewrite Hname. apply schema_lookup_contact.
  - apply (validator_ok field (JS.get (values s) (name field))); [done|].
    apply resolver_values; [done|].
    apply schema_lookup; [done..|]. by apply String.eqb_neq.
Qed.

Lemma saved_values_fit_rules_witness :
  ∃ body, posted (submit filledIn) = posted filledIn ++ [body]
          ∧ Forall (λ field, wellTyped field = true) body.
Proof.
  apply (saved_values_fit_rules filledIn).
  - simpl. repeat constructor; set_solver.
  - vm_compute. reflexivity.
Defined.

(* ===================================================================== *)
(** * The API route *)
(* ===================================================================== *)

Lemma serve_snoc (store : list FormField) (reqs : list Api.Request) (req : Api.Request) :
  Api.serve store (reqs ++ [req])
  = ((Api.handler (Api.serve store reqs).1 req).1,
     (Api.serve store reqs).2 ++ [(Api.handler (Api.serve store reqs).1 req).2]).
Proof.
  unfold Api.serve. rewrite foldl_app. simpl.
  destruct (foldl _ _ reqs) as [current answers]. simpl.
  by destruct (Api.handler current req).
Qed.

Lemma lastPosted_snoc (reqs : list Api.Request) (req : Api.Request) :
  Api.lastPosted (reqs ++ [req])
  = if String.eqb (Api.method req) "POST" then Some (Api.body req) else Api.lastPosted reqs.
Proof.
  unfold Api.lastPosted. rewrite filter_app.
  destruct (String.eqb_spec (Api.method req) "POST") as [Hpost|Hother].
  - rewrite filter_cons_True by done. rewrite filter_nil. by rewrite last_snoc.
  - rewrite filter_cons_False by done. by rewrite filter_nil, app_nil_r.
Qed.

(** X17: the route keeps exactly the last list it was posted.  After any
    sequence of requests the stored list is the body of the last POST
    among them, or the list it started with if there was none: a POST
    replaces the list wholesale, GET and any other method leave it alone.
    A GET that follows is answered 200 with that list.  Every request is
    answered, 200 to GET and POST and 405 to any other method. *)
Theorem api_keeps_last_post (store : list FormField) (reqs : list Api.Request)
    (ignored : list FormField) :
  (Api.serve store reqs).1 = default store (Api.lastPosted reqs)
  ∧ Api.handler (Api.serve store reqs).1 {| Api.method := "GET"; Api.body := ignored |}
    = (default store (Api.lastPosted reqs),
       {| Api.status := 200;
          Api.json := Api.descriptors (default store (Api.lastPosted reqs)) |})
  ∧ Api.status <$> (Api.serve store reqs).2
    = (λ req, if String.eqb (Api.method req) "GET" || String.eqb (Api.method req) "POST"
              then 200%nat else 405%nat) <$> reqs.
Proof.
  assert ((Api.serve store reqs).1 = default store (Api.lastPosted reqs)
          ∧ Api.status <$> (Api.serve store reqs).2
            = (λ req, if String.eqb (Api.method req) "GET"
                         || String.eqb (Api.method req) "POST"
                      then 200%nat else 405%nat) <$> reqs) as [Hstore Hstatus].
  { induction reqs as [|req reqs [IHstore IHstatus]] using rev_ind; [done|].
    rewrite serve_snoc, lastPosted_snoc. cbn [fst snd].
    rewrite !fmap_app, IHstatus. cbn [fmap list_fmap].
    unfold Api.handler. rewrite IHstore.
    destruct (String.eqb (Api.method req) "GET") eqn:Hget; simpl.
    - apply String.eqb_eq in Hget. rewrite Hget. done.
    - by destruct (String.eqb (Api.method req) "POST"). }
  rewrite Hstore. done.
Qed.

Example api_round_trip :
  (Api.handler
     (Api.serve initialFields
        [ {| Api.method := "POST"; Api.body := [quantity] |};
          {| Api.method := "DELETE"; Api.body := [] |};
          {| Api.method := "GET"; Api.body := [] |} ]).1
     {| Api.method := "GET"; Api.body := [] |}).2
  = {| Api.status := 200; Api.json := Api.descriptors [quantity] |}.
Proof. reflexivity. Qed.
